(** * Notification delivery and synchronisation engine

    A shallow embedding of the foreground [NotificationManager] class
    (the notification manager module) and of the background worker
    [public/sw.js], with the properties of the unread counter, of the
    initialisation cap and of the worker's event handlers.

    Conventions.
    - Every asynchronous method is embedded as a function of the manager
      state and of the outcomes of the calls it awaits (a fetch that
      resolves or rejects, a permission answer, ...).  These outcomes are
      explicit arguments, so a property is stated for all of them.
    - Every interaction with the outside (listener callbacks, socket
      emits, HTTP requests, badge calls) is recorded, in program order,
      in the list of effects a method returns.  Console output is not
      recorded.
    - JavaScript numbers are modelled in their integer range as [Z].
      The arithmetic of [Z] is that of the numbers on the safe integers,
      and a statement about the value a count takes is stated there. *)

From Stdlib Require Import ZArith Lia Bool List String Ascii.
From stdpp Require Import base option list strings gmap.

#[local] Set Warnings "-register-all".

Local Open Scope string_scope.
Local Open Scope list_scope.
Local Open Scope Z_scope.

(** ** JavaScript values *)

Module Js.

(** The values a [number]-typed field can hold at run time when it is fed
    from payload fields that are integers or missing. *)
Inductive jsnum : Type :=
| Undefined
| NaN
| Int (z : Z).

(** ToBoolean on such a value. *)
Definition num_truthy (v : jsnum) : bool :=
  match v with
  | Int z => negb (z =? 0)
  | Undefined | NaN => false
  end.

(** [a || b] *)
Definition num_or (a b : jsnum) : jsnum := if num_truthy a then a else b.

(** [v > 0]: false for [undefined] and [NaN]. *)
Definition num_gt0 (v : jsnum) : bool :=
  match v with
  | Int z => 0 <? z
  | Undefined | NaN => false
  end.

(** [Number.MAX_SAFE_INTEGER], 2^53 - 1: a JavaScript number holds every
    integer up to it in absolute value, and adding or subtracting one is
    exact there. *)
Definition MAX_SAFE_INTEGER : Z := 9007199254740991.

(** [Number.isSafeInteger] on an integer. *)
Definition is_safe (z : Z) : bool :=
  (- MAX_SAFE_INTEGER <=? z) && (z <=? MAX_SAFE_INTEGER).

(** The value stored by [v++]; the sum is the one of the integers, which
    is the one of the numbers on the safe integers.  Beyond them the
    number is rounded, and what is stated about the value of a count is
    stated for safe integers. *)
Definition num_incr (v : jsnum) : jsnum :=
  match v with
  | Int z => Int (z + 1)
  | Undefined | NaN => NaN
  end.

(** The value stored by [v--], with the same remark. *)
Definition num_decr (v : jsnum) : jsnum :=
  match v with
  | Int z => Int (z - 1)
  | Undefined | NaN => NaN
  end.

(** A non-negative integer. *)
Definition is_count (v : jsnum) : bool :=
  match v with
  | Int z => 0 <=? z
  | Undefined | NaN => false
  end.

(** JSON-shaped values, as produced by [JSON.parse] or written as
    literals in the worker. *)
Inductive jsval : Type :=
| JUndefined
| JNull
| JBool (b : bool)
| JNum (z : Z)
| JStr (s : string)
| JArr (items : list jsval)
| JObj (fields : list (string * jsval)).

Definition truthy (v : jsval) : bool :=
  match v with
  | JUndefined | JNull => false
  | JBool b => b
  | JNum z => negb (z =? 0)
  | JStr s => negb (String.eqb s "")
  | JArr _ | JObj _ => true
  end.

(** [a || b] *)
Definition or_else (a b : jsval) : jsval := if truthy a then a else b.

Fixpoint assoc (k : string) (fields : list (string * jsval)) : option jsval :=
  match fields with
  | [] => None
  | (k', v) :: rest => if String.eqb k k' then Some v else assoc k rest
  end.

(** Property read [v.k].  [None] is the TypeError raised on [null] and
    [undefined]; a missing property reads as [undefined].  The property
    names read by the worker are own properties only. *)
Definition get (v : jsval) (k : string) : option jsval :=
  match v with
  | JUndefined | JNull => None
  | JObj fields => Some (default JUndefined (assoc k fields))
  | JBool _ | JNum _ | JStr _ | JArr _ => Some JUndefined
  end.

(** [k] is absent from the object [v]. *)
Definition absent (v : jsval) (k : string) : bool :=
  match get v k with
  | Some JUndefined => true
  | _ => false
  end.

(** [s.startsWith(p)] *)
Definition startsWith (s p : string) : bool := String.prefix p s.

(** [s.includes(sub)] *)
Fixpoint includes (s sub : string) : bool :=
  String.prefix sub s ||
  match s with
  | EmptyString => false
  | String _ rest => includes rest sub
  end.

(** [s.replace(pat, by)] with a string pattern: the first occurrence only. *)
Fixpoint replace_first (s pat by_ : string) : string :=
  if String.prefix pat s
  then by_ +:+ String.substring (String.length pat) (String.length s - String.length pat) s
  else match s with
       | EmptyString => EmptyString
       | String c rest => String c (replace_first rest pat by_)
       end.

Definition lower_ascii (c : ascii) : ascii :=
  let n := nat_of_ascii c in
  if ((65 <=? n) && (n <=? 90))%nat then ascii_of_nat (n + 32) else c.

(** [s.toLowerCase()] on ASCII text. *)
Fixpoint toLowerCase (s : string) : string :=
  match s with
  | EmptyString => EmptyString
  | String c rest => String (lower_ascii c) (toLowerCase rest)
  end.

End Js.

(** ** The foreground notification manager *)

Module NotificationManager.
Import Js.

Inductive NotificationType : Type :=
| order_assigned | order_completed | order_cancelled
| payment_received | system_update.

Inductive Priority : Type := low | normal | high | urgent.

Record Notification : Type := mkNotification {
  id : string;
  notif_userId : string;
  type : NotificationType;
  title : string;
  body : string;
  targetUrl : option string;
  priority : Priority;
  isRead : bool;
  readAt : option string;
  createdAt : string
}.

Inductive DeviceType : Type := android | ios | desktop | tablet.

(** The socket.io client handle held in [this.socket]. *)
Record Socket : Type := mkSocket { connected : bool }.

(** The fields of the class; [None] is [null].  A listener callback is
    identified by a number; [listeners] is the [Map<string, Function[]>]. *)
Record Manager : Type := mkManager {
  socket : option Socket;
  deviceId : option string;
  userId : option string;
  registration : bool;                 (* this.registration is set *)
  vapidPublicKey : option string;
  listeners : gmap string (list nat);
  unreadCount : jsnum;
  initializationAttempts : Z;
  maxInitializationAttempts : Z;
  isInitializing : bool
}.

(** [new NotificationManager()] *)
Definition fresh : Manager :=
  {| socket := None; deviceId := None; userId := None;
     registration := false; vapidPublicKey := None; listeners := ∅;
     unreadCount := Int 0; initializationAttempts := 0;
     maxInitializationAttempts := 3; isInitializing := false |}.

(** What the browser offers at the time of a call. *)
Record Platform : Type := mkPlatform {
  userAgent : string;
  has_serviceWorker : bool;   (* 'serviceWorker' in navigator *)
  has_Notification : bool;    (* 'Notification' in window *)
  has_setAppBadge : bool;     (* 'setAppBadge' in navigator *)
  worker_active : bool;       (* registration.active is set *)
  visible : bool              (* document.visibilityState === 'visible' *)
}.

Inductive Permission : Type := granted | denied | prompt_default.

(** Outcome of a [fetch] whose response body is not inspected. *)
Inductive FetchOutcome : Type :=
| Resolved (status : nat)
| Rejected.

(** Outcome of the push-key request, in the order the method checks it. *)
Inductive VapidOutcome : Type :=
| VapidRejected                        (* network error or 5 s timeout *)
| VapidHttpError (status : nat)        (* !response.ok *)
| VapidBadJson                         (* response.json() rejects *)
| VapidRefused                         (* data.success is falsy *)
| VapidKey (publicKey : option string).

Inductive SubscribeOutcome : Type :=
| SubscribeRejected                    (* fetch or json() rejects *)
| SubscribeRefused                     (* data.success is falsy *)
| SubscribeOk (device : string).

(** Outcome of the pending-notifications poll. *)
Inductive PendingOutcome : Type :=
| PendingRejected
| PendingFailure                       (* data.success is falsy *)
| PendingOk (data : list Notification) (count : jsnum).

(** Outcomes of the calls awaited by one [initialize], each taken to
    settle. *)
Record InitEnv : Type := mkInitEnv {
  register_ok : bool;
  vapid : VapidOutcome;
  permission_now : Permission;         (* Notification.permission *)
  permission_answer : Permission;      (* Notification.requestPermission() *)
  existing_subscription : bool;
  push_subscribe_ok : bool;
  backend_subscribe : SubscribeOutcome
}.

Inductive EmitArg : Type :=
| NoArg
| CountArg (count : jsnum)
| NotificationArg (n : Notification)
| IdArg (notificationId : string).

Inductive Effect : Type :=
| ListenerCall (callback : nat) (event : string) (arg : EmitArg)
| SetAppBadge (count : jsnum)
| ClearAppBadge
| PostUpdateBadge (count : jsnum)
| SocketOpen (url : string)
| SocketEmit (event : string) (fields : list (string * option string))
| SocketDisconnect
| HttpRequest (method url : string) (fields : list (string * option string))
| RegisterWorker (script scope : string)
| RequestPermission
| GetSubscription
| PushSubscribe (applicationServerKey : string)
| StoreDeviceId (device : string)
| ListenWorkerMessages
| ListenVisibility
| PlaySound.

(** *** A state, exception and trace monad for the methods *)

Inductive Result (A : Type) : Type :=
| Ret (a : A)
| Throw.
Arguments Ret {A} a.
Arguments Throw {A}.

Definition M (A : Type) : Type := Manager -> Result A * Manager * list Effect.

Definition ret {A} (a : A) : M A := fun s => (Ret a, s, []).
Definition throw {A} : M A := fun s => (Throw, s, []).
Definition bind {A B} (c : M A) (k : A -> M B) : M B :=
  fun s =>
    match c s with
    | (Ret a, s1, e1) => let '(r, s2, e2) := k a s1 in (r, s2, e1 ++ e2)
    | (Throw, s1, e1) => (Throw, s1, e1)
    end.
(** [try { c } catch { h }] *)
Definition try_catch {A} (c : M A) (h : M A) : M A :=
  fun s =>
    match c s with
    | (Ret a, s1, e1) => (Ret a, s1, e1)
    | (Throw, s1, e1) => let '(r, s2, e2) := h s1 in (r, s2, e1 ++ e2)
    end.
Definition read {A} (f : Manager -> A) : M A := fun s => (Ret (f s), s, []).
Definition update (f : Manager -> Manager) : M unit := fun s => (Ret tt, f s, []).
Definition tell (e : list Effect) : M unit := fun s => (Ret tt, s, e).
Definition when (b : bool) (c : M unit) : M unit := if b then c else ret tt.

Notation "'let!' x ':=' c 'in' k" := (bind c (fun x => k))
  (at level 10, x name, c at level 100, k at level 200).
Notation "c ';;;' k" := (bind c (fun _ => k))
  (at level 100, k at level 200, right associativity).

Definition state_of {A} (r : Result A * Manager * list Effect) : Manager := snd (fst r).
Definition effects_of {A} (r : Result A * Manager * list Effect) : list Effect := snd r.
Definition result_of {A} (r : Result A * Manager * list Effect) : Result A := fst (fst r).

(** Field setters. *)
Definition set_socket v (s : Manager) : Manager :=
  mkManager v (deviceId s) (userId s) (registration s) (vapidPublicKey s)
    (listeners s) (unreadCount s) (initializationAttempts s)
    (maxInitializationAttempts s) (isInitializing s).
Definition set_deviceId v (s : Manager) : Manager :=
  mkManager (socket s) v (userId s) (registration s) (vapidPublicKey s)
    (listeners s) (unreadCount s) (initializationAttempts s)
    (maxInitializationAttempts s) (isInitializing s).
Definition set_userId v (s : Manager) : Manager :=
  mkManager (socket s) (deviceId s) v (registration s) (vapidPublicKey s)
    (listeners s) (unreadCount s) (initializationAttempts s)
    (maxInitializationAttempts s) (isInitializing s).
Definition set_registration v (s : Manager) : Manager :=
  mkManager (socket s) (deviceId s) (userId s) v (vapidPublicKey s)
    (listeners s) (unreadCount s) (initializationAttempts s)
    (maxInitializationAttempts s) (isInitializing s).
Definition set_vapidPublicKey v (s : Manager) : Manager :=
  mkManager (socket s) (deviceId s) (userId s) (registration s) v
    (listeners s) (unreadCount s) (initializationAttempts s)
    (maxInitializationAttempts s) (isInitializing s).
Definition set_listeners v (s : Manager) : Manager :=
  mkManager (socket s) (deviceId s) (userId s) (registration s)
    (vapidPublicKey s) v (unreadCount s) (initializationAttempts s)
    (maxInitializationAttempts s) (isInitializing s).
Definition set_unreadCount v (s : Manager) : Manager :=
  mkManager (socket s) (deviceId s) (userId s) (registration s)
    (vapidPublicKey s) (listeners s) v (initializationAttempts s)
    (maxInitializationAttempts s) (isInitializing s).
Definition set_initializationAttempts v (s : Manager) : Manager :=
  mkManager (socket s) (deviceId s) (userId s) (registration s)
    (vapidPublicKey s) (listeners s) (unreadCount s) v
    (maxInitializationAttempts s) (isInitializing s).
Definition set_isInitializing v (s : Manager) : Manager :=
  mkManager (socket s) (deviceId s) (userId s) (registration s)
    (vapidPublicKey s) (listeners s) (unreadCount s)
    (initializationAttempts s) (maxInitializationAttempts s) v.

(** *** The methods *)

Section Methods.

(** The imported configuration constant and the browser. *)
Variable API_BASE_URL : string.
Variable plat : Platform.

(** [emit]: every callback registered for the event, in order. *)
Definition emit (event : string) (arg : EmitArg) : M unit :=
  let! ls := read (fun s => listeners s !! event) in
  match ls with
  | Some callbacks => tell (map (fun cb => ListenerCall cb event arg) callbacks)
  | None => ret tt
  end.

Definition on (event : string) (callback : nat) : M unit :=
  update (fun s =>
    set_listeners
      (<[event := default [] (listeners s !! event) ++ [callback]]> (listeners s)) s).

(** [indexOf] then [splice(index, 1)]: the first occurrence goes. *)
Fixpoint remove_first (callback : nat) (l : list nat) : list nat :=
  match l with
  | [] => []
  | x :: rest => if Nat.eqb x callback then rest else x :: remove_first callback rest
  end.

Definition off (event : string) (callback : nat) : M unit :=
  update (fun s =>
    match listeners s !! event with
    | Some l => set_listeners (<[event := remove_first callback l]> (listeners s)) s
    | None => s
    end).

Definition updateBadge (count : jsnum) : M unit :=
  when (has_setAppBadge plat)
    (if num_gt0 count then tell [SetAppBadge count] else tell [ClearAppBadge]) ;;;
  let! reg := read registration in
  when (reg && worker_active plat) (tell [PostUpdateBadge count]).

Definition detectDeviceType : DeviceType :=
  let ua := toLowerCase (userAgent plat) in
  if includes ua "android" then android
  else if includes ua "iphone" || includes ua "ipad" || includes ua "ipod" then ios
  else if includes ua "tablet" || includes ua "ipad" then tablet
  else desktop.

Definition device_type_name (d : DeviceType) : string :=
  match d with
  | android => "android" | ios => "ios" | desktop => "desktop" | tablet => "tablet"
  end.

Definition getDeviceName : string := String.substring 0 50 (userAgent plat).

(** [fetch] of a request whose response is not inspected: it throws only
    when the promise rejects. *)
Definition fetch (method url : string) (fields : list (string * option string))
    (outcome : FetchOutcome) : M unit :=
  tell [HttpRequest method url fields] ;;;
  match outcome with
  | Resolved _ => ret tt
  | Rejected => throw
  end.

(** [this.socket?.emit(...)] *)
Definition socket_emit (event : string) (fields : list (string * option string)) : M unit :=
  let! k := read socket in
  match k with
  | Some _ => tell [SocketEmit event fields]
  | None => ret tt
  end.

(** The [updatefound] listener it installs is not part of the model. *)
Definition registerServiceWorker (env : InitEnv) : M unit :=
  if negb (has_serviceWorker plat) then throw
  else
    tell [RegisterWorker "/sw.js" "/"] ;;;
    if register_ok env then update (set_registration true) else throw.

Definition fetchVapidPublicKey (env : InitEnv) : M unit :=
  tell [HttpRequest "GET" (API_BASE_URL +:+ "/notifications/vapid-public-key") []] ;;;
  match vapid env with
  | VapidKey k => update (set_vapidPublicKey k)
  | VapidRejected | VapidHttpError _ | VapidBadJson | VapidRefused => throw
  end.

Definition requestPermission (env : InitEnv) : M Permission :=
  if negb (has_Notification plat) then ret denied
  else
    match permission_now env with
    | granted => ret granted
    | denied => ret denied
    | prompt_default => tell [RequestPermission] ;;; ret (permission_answer env)
    end.

(** Truthiness of [this.vapidPublicKey]. *)
Definition key_truthy (k : option string) : bool :=
  match k with
  | Some key => negb (String.eqb key "")
  | None => false
  end.

(** All failures are caught inside the method. *)
Definition sendSubscriptionToBackend (env : InitEnv) : M unit :=
  let! uid := read userId in
  tell [HttpRequest "POST" (API_BASE_URL +:+ "/notifications/subscribe")
          [("userId", uid);
           ("deviceType", Some (device_type_name detectDeviceType));
           ("deviceName", Some getDeviceName)]] ;;;
  match backend_subscribe env with
  | SubscribeOk d => update (set_deviceId (Some d)) ;;; tell [StoreDeviceId d]
  | SubscribeRejected | SubscribeRefused => ret tt
  end.

(** All failures are caught inside the method. *)
Definition subscribeToPushNotifications (env : InitEnv) : M unit :=
  let! reg := read registration in
  let! key := read vapidPublicKey in
  if negb reg || negb (key_truthy key) then ret tt
  else
    tell [GetSubscription] ;;;
    if existing_subscription env then sendSubscriptionToBackend env
    else
      tell [PushSubscribe (default "" key)] ;;;
      if push_subscribe_ok env then sendSubscriptionToBackend env else ret tt.

Definition socket_connected (s : Manager) : bool :=
  match socket s with
  | Some k => connected k
  | None => false
  end.

Definition connectWebSocket : M unit :=
  let! already := read socket_connected in
  if already then ret tt
  else
    tell [SocketOpen (replace_first API_BASE_URL "/api" "")] ;;;
    update (set_socket (Some (mkSocket false))).

Definition setupServiceWorkerListener : M unit :=
  when (has_serviceWorker plat) (tell [ListenWorkerMessages]).

Definition setupVisibilityChangeListener : M unit := tell [ListenVisibility].

Definition is_granted (p : Permission) : bool :=
  match p with
  | granted => true
  | denied | prompt_default => false
  end.

(** How a call of [initialize] ended. *)
Inductive InitResult : Type :=
| InProgress      (* returned at the in-progress guard *)
| Disabled        (* returned at the attempt cap *)
| Initialized     (* reached the end of the try block *)
| Failed.         (* reached the catch block *)

(** [initialize] up to its first await: the two guards, then the
    bookkeeping.  [None] means the call goes on into the try block. *)
Definition initialize_enter (uid : string) : M (option InitResult) :=
  let! busy := read isInitializing in
  if busy then ret (Some InProgress)
  else
    let! attempts := read initializationAttempts in
    let! cap := read maxInitializationAttempts in
    if cap <=? attempts then ret (Some Disabled)
    else
      update (set_isInitializing true) ;;;
      update (fun s => set_initializationAttempts (initializationAttempts s + 1) s) ;;;
      update (set_userId (Some uid)) ;;;
      ret None.

(** The try block of [initialize] and its catch. *)
Definition initialize_body (env : InitEnv) : M InitResult :=
  try_catch
    (registerServiceWorker env ;;;
     try_catch (fetchVapidPublicKey env) (ret tt) ;;;
     let! permission := requestPermission env in
     let! key := read vapidPublicKey in
     (if is_granted permission && key_truthy key
      then try_catch (subscribeToPushNotifications env) (ret tt)
      else ret tt) ;;;
     connectWebSocket ;;;
     setupServiceWorkerListener ;;;
     setupVisibilityChangeListener ;;;
     update (set_isInitializing false) ;;;
     ret Initialized)
    (update (set_isInitializing false) ;;;
     ret Failed).

(** A call of [initialize] that is awaited to its end. *)
Definition initialize (env : InitEnv) (uid : string) : M InitResult :=
  let! early := initialize_enter uid in
  match early with
  | Some r => ret r
  | None => initialize_body env
  end.

Definition showInAppNotification (n : Notification) : M unit :=
  emit "show-notification" (NotificationArg n).

Definition playNotificationSound : M unit := tell [PlaySound].

(** The events of the realtime channel. *)
Inductive SocketEvent : Type :=
| connect
| connection_verified (unread : jsnum)
| disconnect_event
| reconnect
| reconnect_failed
| connect_error
| notification_new (n : Notification)
| notification_read_sync (notificationId : string)
| notification_all_read
| notification_badge_update (count : jsnum)
| socket_error.

(** The handlers installed by [connectWebSocket], each run on an event
    that carries the payload it reads.  The socket's own [connected]
    flag follows the connect and disconnect events. *)
Definition on_socket (ev : SocketEvent) : M unit :=
  match ev with
  | connect =>
      update (set_socket (Some (mkSocket true))) ;;;
      let! uid := read userId in
      let! dev := read deviceId in
      tell [SocketEmit "authenticate"
              [("userId", uid); ("deviceId", dev);
               ("deviceType", Some (device_type_name detectDeviceType))]]
  | connection_verified unread =>
      update (set_unreadCount (num_or unread (Int 0))) ;;;
      let! u := read unreadCount in
      emit "unread-count-updated" (CountArg u) ;;;
      updateBadge u
  | disconnect_event =>
      update (set_socket (Some (mkSocket false))) ;;;
      emit "disconnected" NoArg
  | reconnect => emit "reconnected" NoArg
  | reconnect_failed => emit "reconnect-failed" NoArg
  | connect_error => ret tt
  | notification_new n =>
      update (fun s => set_unreadCount (num_incr (unreadCount s)) s) ;;;
      let! u := read unreadCount in
      emit "unread-count-updated" (CountArg u) ;;;
      updateBadge u ;;;
      when (visible plat) (showInAppNotification n) ;;;
      playNotificationSound ;;;
      emit "notification" (NotificationArg n)
  | notification_read_sync notificationId =>
      emit "notification-read" (IdArg notificationId)
  | notification_all_read =>
      update (set_unreadCount (Int 0)) ;;;
      emit "unread-count-updated" (CountArg (Int 0)) ;;;
      updateBadge (Int 0) ;;;
      emit "all-read" NoArg
  | notification_badge_update count =>
      update (set_unreadCount count) ;;;
      emit "unread-count-updated" (CountArg count) ;;;
      updateBadge count
  | socket_error => emit "error" NoArg
  end.

Definition fetchMissedNotifications (outcome : PendingOutcome) : M unit :=
  try_catch
    (let! uid := read userId in
     tell [HttpRequest "GET"
             (API_BASE_URL +:+ "/notifications/pending?userId=" +:+ default "null" uid
                +:+ "&limit=10") []] ;;;
     match outcome with
     | PendingRejected => throw
     | PendingFailure => ret tt
     | PendingOk data count =>
         match data with
         | [] => ret tt
         | _ :: _ =>
             foldr (fun n k => showInAppNotification n ;;; k) (ret tt) (take 3 data) ;;;
             update (set_unreadCount count) ;;;
             emit "unread-count-updated" (CountArg count) ;;;
             updateBadge count
         end
     end)
    (ret tt).

Definition markAsRead (notificationId : string) (http : FetchOutcome) : M unit :=
  try_catch
    (socket_emit "notification:mark-read" [("notificationId", Some notificationId)] ;;;
     let! uid := read userId in
     fetch "POST" (API_BASE_URL +:+ "/notifications/mark-read")
       [("notificationId", Some notificationId); ("userId", uid)] http ;;;
     let! u := read unreadCount in
     when (num_gt0 u)
       (update (set_unreadCount (num_decr u)) ;;;
        let! u' := read unreadCount in
        emit "unread-count-updated" (CountArg u') ;;;
        updateBadge u'))
    (ret tt).

Definition markAsClicked (notificationId : string) (http : FetchOutcome) : M unit :=
  try_catch
    (socket_emit "notification:clicked" [("notificationId", Some notificationId)] ;;;
     markAsRead notificationId http)
    (ret tt).

Definition markAllAsRead (http : FetchOutcome) : M unit :=
  try_catch
    (socket_emit "notification:mark-all-read" [] ;;;
     let! uid := read userId in
     fetch "POST" (API_BASE_URL +:+ "/notifications/mark-all-read")
       [("userId", uid)] http ;;;
     update (set_unreadCount (Int 0)) ;;;
     emit "unread-count-updated" (CountArg (Int 0)) ;;;
     updateBadge (Int 0))
    (ret tt).

Definition getUnreadCount : M jsnum := read unreadCount.

(** [socket.disconnect()] on a connected socket fires the socket's
    [disconnect] event before it returns (socket.io closes the socket
    with the reason "io client disconnect"), so the handler installed by
    [connectWebSocket] runs while the listeners are still registered. *)
Definition disconnect : M unit :=
  let! k := read socket in
  (match k with
   | Some sock =>
       tell [SocketDisconnect] ;;;
       when (connected sock) (emit "disconnected" NoArg)
   | None => ret tt
   end) ;;;
  update (set_socket None) ;;;
  update (set_listeners ∅).

(** *** Runs of a session *)

(** What can happen to a session object, one entry per call or event.

    A method that awaits an HTTP call writes no field before the await,
    so as far as the state goes a call that overlaps with other entries
    is the same as one entry placed where its await settles.
    [initialize] does write fields before its first await:
    [CallInitialize] is a call awaited to its end, while
    [BeginInitialize] and [ResumeInitialize] split a call at its first
    await, so that other entries can fall in between.  A click message
    from the worker is a [CallMarkAsClicked].  [SocketDelivers] is an
    event of the socket the manager holds. *)
Inductive Op : Type :=
| CallInitialize (env : InitEnv) (uid : string)
| BeginInitialize (uid : string)
| ResumeInitialize (env : InitEnv)
| SocketDelivers (ev : SocketEvent)
| CallMarkAsRead (notificationId : string) (http : FetchOutcome)
| CallMarkAsClicked (notificationId : string) (http : FetchOutcome)
| CallMarkAllAsRead (http : FetchOutcome)
| BecameVisible (outcome : PendingOutcome)
| CallOn (event : string) (callback : nat)
| CallOff (event : string) (callback : nat)
| CallDisconnect.

Definition void {A} (c : M A) : M unit := c ;;; ret tt.

Definition step (op : Op) : M unit :=
  match op with
  | CallInitialize env uid => void (initialize env uid)
  | BeginInitialize uid => void (initialize_enter uid)
  | ResumeInitialize env =>
      let! busy := read isInitializing in
      when busy (void (initialize_body env))
  | SocketDelivers ev =>
      let! k := read socket in
      when (bool_decide (is_Some k)) (on_socket ev)
  | CallMarkAsRead notificationId http => markAsRead notificationId http
  | CallMarkAsClicked notificationId http => markAsClicked notificationId http
  | CallMarkAllAsRead http => markAllAsRead http
  | BecameVisible outcome => fetchMissedNotifications outcome
  | CallOn event callback => on event callback
  | CallOff event callback => off event callback
  | CallDisconnect => disconnect
  end.

(** The state after an operation. *)
Definition after (op : Op) (s : Manager) : Manager := state_of (step op s).

(** The state after a sequence of operations. *)
Definition run (ops : list Op) (s : Manager) : Manager := foldl (fun s op => after op s) s ops.

(** The states passed through, one per operation. *)
Fixpoint states (ops : list Op) (s : Manager) : list Manager :=
  match ops with
  | [] => []
  | op :: rest => after op s :: states rest (after op s)
  end.

(** The counts the server sends are non-negative integers (or, in the
    verification event, missing). *)
Definition server_counts_ok (op : Op) : bool :=
  match op with
  | SocketDelivers (notification_badge_update count) => is_count count
  | SocketDelivers (connection_verified unread) => is_count (num_or unread (Int 0))
  | BecameVisible (PendingOk (_ :: _) count) => is_count count
  | _ => true
  end.

(** Whether an [initialize] call made in state [s] gets past its two
    guards, the in-progress flag and the attempt cap. *)
Definition passes_guards (s : Manager) : bool :=
  negb (isInitializing s) &&
  negb (maxInitializationAttempts s <=? initializationAttempts s).

(** The operation is an [initialize] call, whole or split, that is not
    short-circuited by a guard in state [s]. *)
Definition counted (op : Op) (s : Manager) : bool :=
  match op with
  | CallInitialize _ _ | BeginInitialize _ => passes_guards s
  | _ => false
  end.

(** The number of [initialize] calls of a run that got past the guards. *)
Fixpoint counted_calls (ops : list Op) (s : Manager) : nat :=
  match ops with
  | [] => 0
  | op :: rest =>
      ((if counted op s then 1 else 0) + counted_calls rest (after op s))%nat
  end.

End Methods.

(** *** Invariants *)

(** [c] keeps the property [P] of the state, however it ends. *)
Definition preserves {A} (P : Manager -> Prop) (c : M A) : Prop :=
  forall s, P s -> P (state_of (c s)).

(** The unread count is a non-negative integer. *)
Definition count_ok (s : Manager) : Prop := is_count (unreadCount s) = true.

(** The attempt counter is at least [a] and the cap is [m]. *)
Definition cap_ok (a m : Z) (s : Manager) : Prop :=
  a <= initializationAttempts s /\ maxInitializationAttempts s = m.

(** The attempt counter is [a] and the cap is [m]. *)
Definition attempts_are (a m : Z) (s : Manager) : Prop :=
  initializationAttempts s = a /\ maxInitializationAttempts s = m.

(** The cap is reached and no call is in flight. *)
Definition disabled (s : Manager) : Prop :=
  maxInitializationAttempts s <= initializationAttempts s /\
  isInitializing s = false.

(** The push-key request did not yield a key. *)
Definition vapid_failed (o : VapidOutcome) : bool :=
  match o with
  | VapidKey _ => false
  | VapidRejected | VapidHttpError _ | VapidBadJson | VapidRefused => true
  end.

Definition is_socket_open (e : Effect) : bool :=
  match e with
  | SocketOpen _ => true
  | _ => false
  end.

(** The calls that set up a push subscription. *)
Definition is_push_setup (e : Effect) : bool :=
  match e with
  | GetSubscription | PushSubscribe _ | StoreDeviceId _ => true
  | _ => false
  end.

(** *** Sample environments, for the examples *)

Definition sample_base : string := "https://water.example/api".

Definition sample_browser : Platform :=
  {| userAgent := "Mozilla/5.0 (X11; Linux x86_64)";
     has_serviceWorker := true; has_Notification := true;
     has_setAppBadge := true; worker_active := true; visible := true |}.

(** A browser without service workers: [registerServiceWorker] throws. *)
Definition sample_old_browser : Platform :=
  {| userAgent := "Mozilla/4.0";
     has_serviceWorker := false; has_Notification := false;
     has_setAppBadge := false; worker_active := false; visible := true |}.

(** Every awaited call succeeds. *)
Definition env_ok : InitEnv :=
  {| register_ok := true; vapid := VapidKey (Some "BPk3yQ");
     permission_now := granted; permission_answer := granted;
     existing_subscription := false; push_subscribe_ok := true;
     backend_subscribe := SubscribeOk "device-1" |}.

(** The push-key request times out; the rest succeeds. *)
Definition env_no_key : InitEnv :=
  {| register_ok := true; vapid := VapidRejected;
     permission_now := granted; permission_answer := granted;
     existing_subscription := false; push_subscribe_ok := true;
     backend_subscribe := SubscribeOk "device-1" |}.

(** The worker registration is rejected. *)
Definition env_no_worker : InitEnv :=
  {| register_ok := false; vapid := VapidRejected;
     permission_now := prompt_default; permission_answer := denied;
     existing_subscription := false; push_subscribe_ok := false;
     backend_subscribe := SubscribeRejected |}.

Definition sample_notification : Notification :=
  {| id := "n1"; notif_userId := "rider-7"; type := order_assigned;
     title := "Order assigned"; body := "Order 42 is yours";
     targetUrl := Some "/rider/orders/42"; priority := high;
     isRead := false; readAt := None; createdAt := "2025-01-01T10:00:00Z" |}.

End NotificationManager.

(** ** The background worker *)

Module ServiceWorker.
Import Js.

(** A response body: opaque text, or the text [JSON.stringify(v)]. *)
Inductive Body : Type :=
| Text (s : string)
| JsonText (v : jsval).

Record Response : Type := mkResponse {
  status : nat;
  headers : list (string * string);
  body : Body
}.

(** What [fetch(request)] settles to. *)
Inductive NetResult : Type :=
| NetResponse (r : Response)
| NetError.

(** The display options handed to [showNotification]. *)
Record Options : Type := mkOptions {
  opt_body : jsval;
  opt_icon : jsval;
  opt_badge : jsval;
  opt_tag : jsval;
  opt_requireInteraction : jsval;
  opt_vibrate : jsval;
  opt_data : jsval;
  opt_actions : jsval;
  opt_silent : bool
}.

(** What [event.data] of a push event holds: nothing, text on which
    [json()] throws, or text that parses to a value. *)
Inductive PushData : Type :=
| NoData
| Unparseable (text : string)
| Parsed (v : jsval).

(** A client returned by [clients.matchAll]. *)
Record Client : Type := mkClient {
  client_id : nat;
  client_url : string;
  has_focus : bool;          (* 'focus' in client *)
  focus_resolves : bool      (* client.focus() resolves *)
}.

Record ClickEvent : Type := mkClickEvent {
  action : string;           (* event.action *)
  notification_data : jsval  (* event.notification.data *)
}.

(** The message posted to a focused window. *)
Record ClickMessage : Type := mkClickMessage {
  msg_type : string;
  msg_url : jsval;
  msg_notificationId : jsval;
  msg_action : string
}.

Inductive Effect : Type :=
| NetFetch (url : string)
| CacheLookup (url : string)
| ShowNotification (title : jsval) (options : Options)
| SetAppBadge (count : jsval)
| CloseNotification
| MatchAllWindows
| FocusClient (client : nat)
| PostMessage (client : nat) (msg : ClickMessage)
| OpenWindow (url : jsval).

(** What the fetch listener does with a request: it returns without
    [respondWith], or it responds with a promise; [None] is a promise
    that resolves to [undefined]. *)
Inductive Interception : Type :=
| NotIntercepted
| RespondWith (r : option Response).

Section Worker.

(** [self.location.origin], the network, the caches of the origin (in
    creation order, each from request URL to response) and what the
    platform offers. *)
Variable origin : string.
Variable network : string -> NetResult.
Variable storage : list (string * gmap string Response).
Variable has_setAppBadge : bool.   (* 'setAppBadge' in self.navigator *)
Variable has_openWindow : bool.    (* clients.openWindow is set *)

(** [caches.match(url)]: the first cache that holds the URL. *)
Fixpoint caches_match_in (st : list (string * gmap string Response)) (url : string)
    : option Response :=
  match st with
  | [] => None
  | (_, cache) :: rest =>
      match cache !! url with
      | Some r => Some r
      | None => caches_match_in rest url
      end
  end.

Definition caches_match (url : string) : option Response := caches_match_in storage url.

Definition offline_envelope : jsval :=
  JObj [("success", JBool false); ("message", JStr "Offline")].

Definition offline_response : Response :=
  {| status := 200;
     headers := [("Content-Type", "application/json")];
     body := JsonText offline_envelope |}.

(** The fetch listener, for the request URL. *)
Definition on_fetch (url : string) : Interception * list Effect :=
  if negb (startsWith url origin) then (NotIntercepted, [])
  else if includes url "/api/" then
    match network url with
    | NetResponse r => (RespondWith (Some r), [NetFetch url])
    | NetError => (RespondWith (Some offline_response), [NetFetch url])
    end
  else
    match caches_match url with
    | Some r => (RespondWith (Some r), [CacheLookup url])
    | None =>
        match network url with
        | NetResponse r => (RespondWith (Some r), [CacheLookup url; NetFetch url])
        | NetError =>
            (RespondWith (caches_match (origin +:+ "/index.html")),
             [CacheLookup url; NetFetch url; CacheLookup (origin +:+ "/index.html")])
        end
    end.

(** The initial [notificationData] of the push listener. *)
Definition default_title : jsval := JStr "New Notification".
Definition default_body : jsval := JStr "You have a new notification".
Definition default_icon : jsval := JStr "/icon-192x192.png".
Definition default_badge : jsval := JStr "/badge-72x72.png".
Definition default_tag : jsval := JStr "default".
Definition default_vibrate : jsval := JArr [JNum 200; JNum 100; JNum 200].
Definition default_data : jsval := JObj [].
Definition default_actions : jsval :=
  JArr [JObj [("action", JStr "view"); ("title", JStr "View");
              ("icon", JStr "/icon-view.png")];
        JObj [("action", JStr "dismiss"); ("title", JStr "Dismiss");
              ("icon", JStr "/icon-dismiss.png")]].

(** [notificationData] once [event.data] has been looked at. *)
Definition notificationData (d : PushData) : jsval :=
  match d with
  | NoData =>
      JObj [("title", default_title); ("body", default_body);
            ("icon", default_icon); ("badge", default_badge);
            ("data", JObj [])]
  | Unparseable text =>
      JObj [("title", default_title); ("body", JStr text);
            ("icon", default_icon); ("badge", default_badge);
            ("data", JObj [])]
  | Parsed v => v
  end.

(** The [options] literal; [None] when a property read throws. *)
Definition options_of (nd : jsval) : option Options :=
  b ← get nd "body";
  i ← get nd "icon";
  g ← get nd "badge";
  t ← get nd "tag";
  r ← get nd "requireInteraction";
  v ← get nd "vibrate";
  d ← get nd "data";
  a ← get nd "actions";
  Some {| opt_body := b;
          opt_icon := or_else i default_icon;
          opt_badge := or_else g default_badge;
          opt_tag := or_else t default_tag;
          opt_requireInteraction := or_else r (JBool false);
          opt_vibrate := or_else v default_vibrate;
          opt_data := or_else d default_data;
          opt_actions := or_else a default_actions;
          opt_silent := false |}.

(** The options the push listener derives from the event's data. *)
Definition push_options (d : PushData) : option Options :=
  options_of (notificationData d).

(** The push listener; [shown] tells whether [showNotification]
    resolves. *)
Definition on_push (shown : bool) (d : PushData) : list Effect :=
  let nd := notificationData d in
  match options_of nd, get nd "title", get nd "badgeCount" with
  | Some options, Some title, Some badgeCount =>
      ShowNotification title options ::
      (if shown
       then match badgeCount with
            | JUndefined => []
            | _ => if has_setAppBadge then [SetAppBadge badgeCount] else []
            end
       else [])
  | _, _, _ => []
  end.

(** The client the loop of the click listener stops at. *)
Definition app_window (c : Client) : bool :=
  includes (client_url c) origin && has_focus c.

(** The notificationclick listener; [matched] is what
    [clients.matchAll] resolves to, [None] when it rejects. *)
Definition on_notificationclick (matched : option (list Client)) (ev : ClickEvent)
    : list Effect :=
  CloseNotification ::
  if String.eqb (action ev) "dismiss" then []
  else
    match get (notification_data ev) "targetUrl",
          get (notification_data ev) "notificationId" with
    | Some t, Some notificationId =>
        let targetUrl := or_else t (JStr "/") in
        MatchAllWindows ::
        match matched with
        | None => []
        | Some clientList =>
            match List.find app_window clientList with
            | Some client =>
                FocusClient (client_id client) ::
                (if focus_resolves client
                 then [PostMessage (client_id client)
                         {| msg_type := "NOTIFICATION_CLICKED";
                            msg_url := targetUrl;
                            msg_notificationId := notificationId;
                            msg_action := action ev |}]
                 else [])
            | None => if has_openWindow then [OpenWindow targetUrl] else []
            end
        end
    | _, _ => []
    end.

(** [null] or [undefined]. *)
Definition nullish (v : jsval) : bool :=
  match v with
  | JUndefined | JNull => true
  | _ => false
  end.

(** The payload of a push event has no field [k]: there is no payload,
    it is not JSON, or the parsed value has no such property. *)
Definition payload_lacks (d : PushData) (k : string) : bool :=
  match d with
  | NoData | Unparseable _ => true
  | Parsed v => absent v k
  end.

(** The target a click resolves to, and the message a window is sent,
    read off the notification's data. *)
Definition resolved_target (ev : ClickEvent) : jsval :=
  or_else (default JUndefined (get (notification_data ev) "targetUrl")) (JStr "/").

Definition clicked_message (ev : ClickEvent) : ClickMessage :=
  {| msg_type := "NOTIFICATION_CLICKED";
     msg_url := resolved_target ev;
     msg_notificationId :=
       default JUndefined (get (notification_data ev) "notificationId");
     msg_action := action ev |}.

Definition is_focus_or_open (e : Effect) : bool :=
  match e with
  | FocusClient _ | OpenWindow _ => true
  | _ => false
  end.

Definition is_post (e : Effect) : bool :=
  match e with
  | PostMessage _ _ => true
  | _ => false
  end.

Definition is_net_fetch (e : Effect) : bool :=
  match e with
  | NetFetch _ => true
  | _ => false
  end.

Definition is_open (e : Effect) : bool :=
  match e with
  | OpenWindow _ => true
  | _ => false
  end.

End Worker.

(** *** Sample requests and events, for the examples *)

Definition sample_origin : string := "https://water.example".

Definition shell_response : Response :=
  {| status := 200; headers := [("Content-Type", "text/html")];
     body := Text "<!doctype html>" |}.

Definition sample_storage : list (string * gmap string Response) :=
  [("water-supply-v1.0.0",
    {[ "https://water.example/index.html" := shell_response ]})].

Definition offline_network : string -> NetResult := fun _ => NetError.

Definition view_click : ClickEvent :=
  {| action := "view";
     notification_data :=
       JObj [("notificationId", JStr "n1"); ("targetUrl", JStr "/rider/orders/42")] |}.

Definition bare_payload : PushData :=
  Parsed (JObj [("title", JStr "Order assigned")]).

Definition app_client : Client :=
  {| client_id := 1; client_url := "https://water.example/rider";
     has_focus := true; focus_resolves := true |}.

End ServiceWorker.

(** ** More of the manager: observers and helpers *)

Module ManagerObservers.
Import Js NotificationManager.

Definition is_listener_call (e : Effect) : bool :=
  match e with
  | ListenerCall _ _ _ => true
  | _ => false
  end.

Definition is_http (e : Effect) : bool :=
  match e with
  | HttpRequest _ _ _ => true
  | _ => false
  end.

Definition is_permission_prompt (e : Effect) : bool :=
  match e with
  | RequestPermission => true
  | _ => false
  end.

Definition is_push_subscribe (e : Effect) : bool :=
  match e with
  | PushSubscribe _ => true
  | _ => false
  end.

Definition is_badge_call (e : Effect) : bool :=
  match e with
  | SetAppBadge _ | ClearAppBadge => true
  | _ => false
  end.

(** The callbacks an [emit] runs, in order. *)
Definition called (effects : list Effect) : list nat :=
  omap (fun e => match e with ListenerCall cb _ _ => Some cb | _ => None end) effects.

(** The callbacks registered for an event. *)
Definition registered (event : string) (s : Manager) : list nat :=
  default [] (listeners s !! event).

(** [urlBase64ToUint8Array], up to the call of [atob]: the padding and
    the two global replacements that give the local [base64]. *)
Definition padding_length (n : nat) : nat := ((4 - n mod 4) mod 4)%nat.

Fixpoint repeat_char (c : ascii) (n : nat) : string :=
  match n with
  | O => EmptyString
  | S m => String c (repeat_char c m)
  end.

Definition standard_char (c : ascii) : ascii :=
  if Ascii.eqb c "-" then "+"%char
  else if Ascii.eqb c "_" then "/"%char
  else c.

Fixpoint map_chars (f : ascii -> ascii) (s : string) : string :=
  match s with
  | EmptyString => EmptyString
  | String c rest => String (f c) (map_chars f rest)
  end.

Definition urlBase64_padded (base64String : string) : string :=
  map_chars standard_char
    (base64String +:+ repeat_char "=" (padding_length (String.length base64String))).

Fixpoint has_char (c : ascii) (s : string) : bool :=
  match s with
  | EmptyString => false
  | String c' rest => Ascii.eqb c' c || has_char c rest
  end.

(** [c] never ends with an exception. *)
Definition returns {A} (c : M A) : Prop :=
  forall s, result_of (c s) <> Throw.

(** With no listener registered, [c] registers none and calls none. *)
Definition quiet {A} (c : M A) : Prop :=
  forall s, listeners s = ∅ ->
    listeners (state_of (c s)) = ∅ /\
    existsb is_listener_call (effects_of (c s)) = false.

(** The handlers of a socket that the manager no longer holds.  The
    handlers are closures over the manager that test no field before
    they run, and [connectWebSocket] leaves the socket it replaces open,
    so they can still run.  They are the handlers of [on_socket], but
    the [connected] flag they follow is not the one of the socket held
    now, and [this.socket?.emit] goes to the socket held now, if any. *)
Definition on_replaced_socket (plat : Platform) (ev : SocketEvent) : M unit :=
  match ev with
  | connect =>
      let! uid := read userId in
      let! dev := read deviceId in
      socket_emit "authenticate"
        [("userId", uid); ("deviceId", dev);
         ("deviceType", Some (device_type_name (detectDeviceType plat)))]
  | disconnect_event => emit "disconnected" NoArg
  | _ => on_socket plat ev
  end.

(** Something that happens to the manager: an operation of a run, or an
    event delivered by a socket that was replaced. *)
Inductive Happening : Type :=
| Operation (op : Op)
| ReplacedSocketDelivers (ev : SocketEvent).

Definition happen (base : string) (plat : Platform) (h : Happening) : M unit :=
  match h with
  | Operation op => step base plat op
  | ReplacedSocketDelivers ev => on_replaced_socket plat ev
  end.

(** Everything done, in order, along a sequence of happenings. *)
Fixpoint effects_along (base : string) (plat : Platform) (hs : list Happening)
    (s : Manager) : list Effect :=
  match hs with
  | [] => []
  | h :: rest =>
      effects_of (happen base plat h s) ++
      effects_along base plat rest (state_of (happen base plat h s))
  end.

(** The state after the handler of [notification:new] has run for each
    notification of a list, in order. *)
Definition deliver_all (plat : Platform) (xs : list Notification) (s : Manager)
    : Manager :=
  foldl (fun s x => state_of (on_socket plat (notification_new x) s)) s xs.

(** The calls of the listeners of one event. *)
Definition is_call_of (event : string) (e : Effect) : bool :=
  match e with
  | ListenerCall _ ev _ => String.eqb ev event
  | _ => false
  end.

Definition is_on (op : Op) : bool :=
  match op with
  | CallOn _ _ => true
  | _ => false
  end.

(** The happening registers a listener. *)
Definition registers (h : Happening) : bool :=
  match h with
  | Operation op => is_on op
  | ReplacedSocketDelivers _ => false
  end.

(** The calls of the methods, as opposed to what the channel delivers. *)
Definition is_method_call (op : Op) : bool :=
  match op with
  | SocketDelivers _ => false
  | _ => true
  end.

(** The operations of a logout and login: they deal with the session,
    not with notifications. *)
Definition is_session_op (op : Op) : bool :=
  match op with
  | CallInitialize _ _ | BeginInitialize _ | ResumeInitialize _
  | CallOn _ _ | CallOff _ _ | CallDisconnect => true
  | _ => false
  end.

(** *** More samples, for the examples *)

(** A session that is initialised and connected, with 5 unread and one
    listener. *)
Definition sample_session : Manager :=
  run sample_base sample_browser
    [CallInitialize env_ok "rider-7"; SocketDelivers connect;
     SocketDelivers (connection_verified (Int 5));
     CallOn "unread-count-updated" 1%nat] fresh.

Definition sample_ipad : Platform :=
  {| userAgent := "Mozilla/5.0 (iPad; CPU OS 16_0 like Mac OS X)";
     has_serviceWorker := true; has_Notification := true;
     has_setAppBadge := true; worker_active := true; visible := true |}.

End ManagerObservers.

(** ** The list state of the notification pages *)

Module NotificationPages.
Import Js NotificationManager.

(** [{ ...n, isRead: true }] *)
Definition with_read (n : Notification) : Notification :=
  {| id := id n; notif_userId := notif_userId n; type := type n;
     title := title n; body := body n; targetUrl := targetUrl n;
     priority := priority n; isRead := true; readAt := readAt n;
     createdAt := createdAt n |}.

(** The page's [unreadCount]: [notifications.filter(n => !n.isRead).length]. *)
Definition page_unread (notifications : list Notification) : nat :=
  length (List.filter (fun n => negb (isRead n)) notifications).

(** The state update of the page's [handleNotificationClick]; the page
    applies it only when the clicked notification is unread. *)
Definition click_update (clicked : Notification) (prev : list Notification)
    : list Notification :=
  if negb (isRead clicked)
  then map (fun n => if String.eqb (id n) (id clicked) then with_read n else n) prev
  else prev.

(** The state update of the page's [handleMarkAllRead]. *)
Definition mark_all_update (prev : list Notification) : list Notification :=
  map with_read prev.

(** The state update of the bell's [handleNotificationClick]. *)
Definition bell_click_update (clicked : Notification) (prev : list Notification)
    : list Notification :=
  List.filter (fun n => negb (String.eqb (id n) (id clicked))) prev.

(** The state update of the bell's [handleNewNotification]. *)
Definition bell_new_update (n : Notification) (prev : list Notification)
    : list Notification :=
  n :: prev.

Definition sample_page : list Notification :=
  [sample_notification;
   {| id := "n2"; notif_userId := "rider-7"; type := payment_received;
      title := "Payment received"; body := "Order 41 was paid";
      targetUrl := None; priority := normal;
      isRead := true; readAt := Some "2025-01-01T09:00:00Z";
      createdAt := "2025-01-01T08:00:00Z" |}].

End NotificationPages.

(** ** More of the worker: life cycle, control messages, periodic sync *)

Module WorkerLifecycle.
Import Js ServiceWorker.

Definition is_show (e : Effect) : bool :=
  match e with
  | ShowNotification _ _ => true
  | _ => false
  end.

Definition is_set_badge (e : Effect) : bool :=
  match e with
  | SetAppBadge _ => true
  | _ => false
  end.

Definition is_cache_lookup (e : Effect) : bool :=
  match e with
  | CacheLookup _ => true
  | _ => false
  end.

Definition VERSION : string := "1.0.0".
Definition CACHE_NAME : string := "water-supply-v" +:+ VERSION.

Definition ASSETS_TO_CACHE : list string :=
  ["/"; "/index.html"; "/icon-192x192.png"; "/icon-512x512.png"; "/badge-72x72.png"].

Inductive LifecycleEffect : Type :=
| AssetFetch (url : string)
| SkipWaiting
| DeleteCache (name : string)
| ClaimClients.

Definition is_delete (e : LifecycleEffect) : bool :=
  match e with
  | DeleteCache _ => true
  | _ => false
  end.

Section Lifecycle.

Variable origin : string.
Variable network : string -> NetResult.

(** [response.ok] *)
Definition response_ok (r : Response) : bool :=
  ((200 <=? status r) && (status r <=? 299))%nat.

(** What [cache.addAll] collects: every request is fetched, and the call
    rejects, storing nothing, unless every response is ok. *)
Fixpoint fetch_all (urls : list string) : option (list (string * Response)) :=
  match urls with
  | [] => Some []
  | url :: rest =>
      match network url with
      | NetResponse r =>
          if response_ok r
          then match fetch_all rest with
               | Some entries => Some ((url, r) :: entries)
               | None => None
               end
          else None
      | NetError => None
      end
  end.

Definition has_cache (name : string) (st : list (string * gmap string Response)) : bool :=
  existsb (fun c => String.eqb (fst c) name) st.

(** [caches.open(name)]: the cache is created when it does not exist. *)
Definition open_cache (name : string) (st : list (string * gmap string Response))
    : list (string * gmap string Response) :=
  if has_cache name st then st else st ++ [(name, ∅)].

Definition put_all (entries : list (string * Response)) (cache : gmap string Response)
    : gmap string Response :=
  foldr (fun e c => <[fst e := snd e]> c) cache entries.

Definition update_cache (name : string)
    (f : gmap string Response -> gmap string Response)
    (st : list (string * gmap string Response))
    : list (string * gmap string Response) :=
  map (fun c => if String.eqb (fst c) name then (fst c, f (snd c)) else c) st.

(** The asset URLs, resolved against the worker's location. *)
Definition asset_urls : list string := map (fun path => origin +:+ path) ASSETS_TO_CACHE.

(** The install listener: whether the promise given to [waitUntil]
    resolves, the caches afterwards, and the calls made. *)
Definition on_install (st : list (string * gmap string Response))
    : bool * list (string * gmap string Response) * list LifecycleEffect :=
  let st1 := open_cache CACHE_NAME st in
  match fetch_all asset_urls with
  | Some entries =>
      (true, update_cache CACHE_NAME (put_all entries) st1,
       map AssetFetch asset_urls ++ [SkipWaiting])
  | None => (false, st1, map AssetFetch asset_urls)
  end.

(** The activate listener: every cache whose name is not the current one
    is deleted, then the clients are claimed. *)
Definition on_activate (st : list (string * gmap string Response))
    : list (string * gmap string Response) * list LifecycleEffect :=
  (List.filter (fun c => String.eqb (fst c) CACHE_NAME) st,
   map (fun c => DeleteCache (fst c))
     (List.filter (fun c => negb (String.eqb (fst c) CACHE_NAME)) st)
   ++ [ClaimClients]).

End Lifecycle.

(** The control messages; [count] is the [count] field of the data and
    [has_port] tells whether the message came with a port to answer on. *)
Inductive Message : Type :=
| SKIP_WAITING
| GET_VERSION (has_port : bool)
| CLEAR_BADGE
| UPDATE_BADGE (count : jsnum)
| OtherMessage (type : string).

Inductive ControlEffect : Type :=
| CallSkipWaiting
| ReplyVersion (version : string)
| CallSetAppBadge (count : jsnum)
| CallClearAppBadge.

(** The message listener: what it calls, or [None] when it ends with a
    TypeError.  [CLEAR_BADGE] tests for [clearAppBadge]; [UPDATE_BADGE]
    tests for [setAppBadge] only and calls [clearAppBadge] untested. *)
Definition on_message (has_setAppBadge has_clearAppBadge : bool) (m : Message)
    : option (list ControlEffect) :=
  match m with
  | SKIP_WAITING => Some [CallSkipWaiting]
  | GET_VERSION has_port => if has_port then Some [ReplyVersion VERSION] else None
  | CLEAR_BADGE => Some (if has_clearAppBadge then [CallClearAppBadge] else [])
  | UPDATE_BADGE count =>
      let count := num_or count (Int 0) in
      if has_setAppBadge
      then (if num_gt0 count then Some [CallSetAppBadge count]
            else if has_clearAppBadge then Some [CallClearAppBadge] else None)
      else Some []
  | OtherMessage _ => Some []
  end.

(** The badge call the foreground makes itself, in the worker's terms. *)
Definition as_control (e : NotificationManager.Effect) : option ControlEffect :=
  match e with
  | NotificationManager.SetAppBadge count => Some (CallSetAppBadge count)
  | NotificationManager.ClearAppBadge => Some CallClearAppBadge
  | _ => None
  end.

(** The message the foreground posts to the worker, as the worker
    receives it. *)
Definition as_message (e : NotificationManager.Effect) : option Message :=
  match e with
  | NotificationManager.PostUpdateBadge count => Some (UPDATE_BADGE count)
  | _ => None
  end.

(** One entry of the [data] array of the pending-notifications answer. *)
Record PendingItem : Type := mkPendingItem {
  item_id : jsval;
  item_title : jsval;
  item_body : jsval;
  item_targetUrl : jsval
}.

(** What the request of [fetchNewNotifications] settles to; [items] is
    [None] when [data.data] is missing. *)
Inductive PendingAnswer : Type :=
| AnswerRejected
| AnswerNotOk
| AnswerJson (items : option (list PendingItem)) (count : jsval).

Inductive SyncEffect : Type :=
| SyncFetch (url : string)
| SyncShow (title : jsval) (options : jsval)
| SyncSetAppBadge (count : jsval).

Definition is_sync_show (e : SyncEffect) : bool :=
  match e with
  | SyncShow _ _ => true
  | _ => false
  end.

(** The [data] given to a catch-up notification. *)
Definition catch_up_data (n : PendingItem) : jsval :=
  JObj [("notificationId", item_id n); ("targetUrl", item_targetUrl n)].

Definition catch_up_options (n : PendingItem) : jsval :=
  JObj [("body", item_body n);
        ("icon", JStr "/icon-192x192.png");
        ("badge", JStr "/badge-72x72.png");
        ("tag", item_id n);
        ("data", catch_up_data n)].

(** The awaited [showNotification] calls of the loop: a call that
    rejects ends the function in its catch block. *)
Fixpoint show_each (can_show : bool) (items : list PendingItem)
    : bool * list SyncEffect :=
  match items with
  | [] => (true, [])
  | n :: rest =>
      if can_show
      then let '(done, effects) := show_each can_show rest in
           (done, SyncShow (item_title n) (catch_up_options n) :: effects)
      else (false, [SyncShow (item_title n) (catch_up_options n)])
  end.

(** [fetchNewNotifications], run on a periodic sync. *)
Definition fetchNewNotifications (has_setAppBadge can_show : bool)
    (answer : PendingAnswer) : list SyncEffect :=
  SyncFetch "/api/notifications/pending?limit=10" ::
  match answer with
  | AnswerRejected | AnswerNotOk => []
  | AnswerJson None _ | AnswerJson (Some []) _ => []
  | AnswerJson (Some items) count =>
      let '(done, effects) := show_each can_show (take 3 items) in
      effects ++
      (if done && has_setAppBadge then [SyncSetAppBadge count] else [])
  end.

(** *** More samples, for the examples *)

Definition online_network : string -> NetResult := fun _ => NetResponse shell_response.

Definition old_storage : list (string * gmap string Response) :=
  ("water-supply-v0.9.0",
   {[ "https://water.example/old.js" := shell_response ]}) :: sample_storage.

Definition sample_item : PendingItem :=
  {| item_id := JStr "n1"; item_title := JStr "Order assigned";
     item_body := JStr "Order 42 is yours"; item_targetUrl := JUndefined |}.

End WorkerLifecycle.

(** * Properties of the notification manager *)

Module ManagerProofs.
Import Js NotificationManager.

(** ** Invariants of monadic code *)


Section Preserves.
Context {A B : Type} (P : Manager -> Prop).

Lemma preserves_ret (a : A) : preserves P (ret a).
Proof. intros s Hs. exact Hs. Qed.

Lemma preserves_throw : preserves P (@throw A).
Proof. intros s Hs. exact Hs. Qed.

Lemma preserves_tell e : preserves P (tell e).
Proof. intros s Hs. exact Hs. Qed.

Lemma preserves_read (f : Manager -> A) : preserves P (read f).
Proof. intros s Hs. exact Hs. Qed.

Lemma preserves_update f : (forall s, P s -> P (f s)) -> preserves P (update f).
Proof. intros Hf s Hs. apply Hf, Hs. Qed.

Lemma preserves_bind (c : M A) (k : A -> M B) :
  preserves P c -> (forall a, preserves P (k a)) -> preserves P (bind c k).
Proof.
  intros Hc Hk s Hs. specialize (Hc s Hs).
  unfold state_of, bind in *.
  destruct (c s) as [[[a|] s1] e1]; simpl in Hc; [|exact Hc].
  specialize (Hk a s1 Hc). unfold state_of in Hk.
  destruct (k a s1) as [[r2 s2] e2]. exact Hk.
Qed.

Lemma preserves_try_catch (c h : M A) :
  preserves P c -> preserves P h -> preserves P (try_catch c h).
Proof.
  intros Hc Hh s Hs. specialize (Hc s Hs).
  unfold state_of, try_catch in *.
  destruct (c s) as [[[a|] s1] e1]; simpl in Hc; [exact Hc|].
  specialize (Hh s1 Hc). unfold state_of in Hh.
  destruct (h s1) as [[r2 s2] e2]. exact Hh.
Qed.

End Preserves.

Lemma preserves_foldr {X} (P : Manager -> Prop) (f : X -> M unit) (l : list X) :
  (forall x, preserves P (f x)) ->
  preserves P (foldr (fun x k => f x ;;; k) (ret tt) l).
Proof.
  intros Hf. induction l as [|x l IH]; simpl.
  - apply preserves_ret.
  - apply preserves_bind; [apply Hf | intros _; exact IH].
Qed.

(** Walks through a method, leaving one goal per field update. *)
Ltac preserve_step :=
  first
    [ simple apply preserves_ret | simple apply preserves_throw
    | simple apply preserves_tell | simple apply preserves_read
    | simple apply preserves_bind; [|intros ?]
    | simple apply preserves_try_catch
    | simple apply preserves_foldr; intros ?
    | simple apply preserves_update; intros ? ?
    | match goal with
      | |- preserves _ (match ?x with _ => _ end) => destruct x eqn:?
      end ].

Ltac preserve := repeat preserve_step.

Ltac unfold_methods :=
  unfold step, void, initialize, initialize_enter, initialize_body,
    registerServiceWorker, fetchVapidPublicKey, requestPermission,
    subscribeToPushNotifications, sendSubscriptionToBackend, connectWebSocket,
    setupServiceWorkerListener, setupVisibilityChangeListener, on_socket,
    fetchMissedNotifications, markAsClicked, markAsRead, markAllAsRead,
    disconnect, on, off, showInAppNotification, playNotificationSound,
    updateBadge, emit, fetch, socket_emit, when.

(** Runs a method on a state, splitting on the tests it meets. *)
Ltac exec :=
  repeat (cbn;
          match goal with
          | |- context [if ?b then _ else _] => destruct b eqn:?
          | |- context [match ?m !! ?k with _ => _ end] => destruct (m !! k) eqn:?
          | |- context [match ?x with _ => _ end] =>
              lazymatch type of x with
              | VapidOutcome => destruct x eqn:?
              | SubscribeOutcome => destruct x eqn:?
              | Permission => destruct x eqn:?
              | option Socket => destruct x eqn:?
              end
          end);
  cbn.

Section Properties.

Variable API_BASE_URL : string.
Variable plat : Platform.

Abbreviation step := (step API_BASE_URL plat).
Abbreviation after := (after API_BASE_URL plat).
Abbreviation run := (run API_BASE_URL plat).
Abbreviation states := (states API_BASE_URL plat).

Lemma run_preserves (P : Manager -> Prop) (ops : list Op) :
  (forall op, op ∈ ops -> preserves P (step op)) ->
  forall s, P s -> P (run ops s).
Proof.
  induction ops as [|op ops IH]; intros Hstep s Hs; simpl; [exact Hs|].
  apply IH.
  - intros op' Hin. apply Hstep. right. exact Hin.
  - apply (Hstep op); [left | exact Hs].
Qed.

Lemma states_preserve (P : Manager -> Prop) (ops : list Op) :
  (forall op, op ∈ ops -> preserves P (step op)) ->
  forall s, P s -> Forall P (states ops s).
Proof.
  induction ops as [|op ops IH]; intros Hstep s Hs; simpl; constructor.
  - apply (Hstep op); [left | exact Hs].
  - apply IH.
    + intros op' Hin. apply Hstep. right. exact Hin.
    + apply (Hstep op); [left | exact Hs].
Qed.

(** ** The unread counter *)

Lemma incr_is_count v : is_count v = true -> is_count (num_incr v) = true.
Proof. destruct v; simpl; try discriminate. intros H. apply Z.leb_le in H. apply Z.leb_le. lia. Qed.

Lemma decr_is_count v : num_gt0 v = true -> is_count (num_decr v) = true.
Proof. destruct v; simpl; try discriminate. intros H. apply Z.ltb_lt in H. apply Z.leb_le. lia. Qed.

Lemma step_count_ok (op : Op) :
  server_counts_ok op = true -> preserves count_ok (step op).
Proof.
  intros Hop. destruct op as [env uid|uid|env|ev|n http|n http|http|outcome|e c|e c|];
    try destruct ev; try destruct outcome as [| |[|n0 data] count];
    unfold_methods; preserve;
    try (match goal with H : count_ok ?s |- _ =>
           unfold count_ok in *; destruct s; simpl in *; repeat case_match;
           simpl in *; try assumption; try reflexivity
         end);
    try (apply incr_is_count; assumption);
    try (apply decr_is_count; assumption).
Qed.

(** The state left by an update followed by code that keeps [P]. *)
Lemma update_then_preserved {A} (P : Manager -> Prop) f (k : M A) s :
  P (f s) -> preserves P k -> P (state_of ((update f ;;; k) s)).
Proof.
  intros Hf Hk. specialize (Hk (f s) Hf).
  unfold state_of, bind, update in *. simpl.
  destruct (k (f s)) as [[r s2] e2]. exact Hk.
Qed.

Lemma emit_keeps P event arg : preserves P (emit event arg).
Proof. unfold_methods. preserve. Qed.

Lemma updateBadge_keeps P count : preserves P (updateBadge plat count).
Proof. unfold_methods. preserve. Qed.

(** C1, amended.  As long as every absolute count the server sends (in a
    badge update, in the verification event, in the pending poll) is a
    non-negative integer, the unread count is a non-negative integer
    after every operation of every sequence of channel events and calls,
    starting from any state where it is one. *)
Theorem unreadCount_stays_count (ops : list Op) (s : Manager) :
  is_count (unreadCount s) = true ->
  forallb server_counts_ok ops = true ->
  Forall (fun s' => is_count (unreadCount s') = true) (states ops s).
Proof.
  intros Hs Hops. apply (states_preserve count_ok); [|exact Hs].
  intros op Hin. apply step_count_ok.
  rewrite forallb_forall in Hops. apply Hops.
  apply list_elem_of_In. exact Hin.
Qed.

(** C2.  The verification event overwrites the local count: whatever the
    state before, after [connection:verified] with an unread count [N]
    the local count is exactly [N]. *)
Theorem verified_overwrites_count (s : Manager) (N : Z) :
  unreadCount (state_of (on_socket plat (connection_verified (Int N)) s)) = Int N.
Proof.
  unfold on_socket.
  apply (update_then_preserved (fun s' => unreadCount s' = Int N)).
  - destruct s; simpl. unfold num_or, num_truthy.
    destruct (Z.eqb_spec N 0) as [->|]; reflexivity.
  - preserve; [apply emit_keeps | apply updateBadge_keeps].
Qed.

(** C3, amended.  [markAsRead] first emits on the channel (when there
    is a socket) and issues the HTTP write; the local update comes after
    the awaited fetch.  When the fetch resolves, whatever the HTTP
    status, a count above zero is lowered by one (a safe integer [n]
    becomes exactly [n - 1]) and a count that is zero, negative,
    [undefined] or [NaN] is left as it is, with the rest of the state;
    on the non-negative integers this is the decrement clamped at zero.
    When the fetch rejects the update is skipped: the state is left as
    it was and nothing is done after the HTTP write. *)
Theorem markAsRead_decrements_when_fetch_resolves
    (notificationId : string) (http : FetchOutcome) (s : Manager) :
  let r := markAsRead API_BASE_URL plat notificationId http s in
  let emitted :=
    match socket s with
    | Some _ => [SocketEmit "notification:mark-read"
                   [("notificationId", Some notificationId)]]
    | None => []
    end in
  let posted :=
    HttpRequest "POST" (API_BASE_URL +:+ "/notifications/mark-read")
      [("notificationId", Some notificationId); ("userId", userId s)] in
  (exists rest, effects_of r = emitted ++ posted :: rest) /\
  match http with
  | Resolved _ =>
      match unreadCount s with
      | Int n =>
          if 0 <? n
          then n <= MAX_SAFE_INTEGER -> state_of r = set_unreadCount (Int (n - 1)) s
          else state_of r = s
      | Undefined | NaN => state_of r = s
      end
  | Rejected => state_of r = s /\ effects_of r = emitted ++ [posted]
  end.
Proof.
  destruct s as [sock dev uid reg key ls u att cap busy].
  unfold_methods; unfold state_of, effects_of, try_catch, bind, read, tell, update, ret, throw;
    simpl.
  destruct sock, http, u as [| |n]; exec;
    (split; [eexists; reflexivity|]); try (split; reflexivity);
    try reflexivity; intros _; reflexivity.
Qed.

(** C6, amended.  [markAllAsRead] zeroes the count after the awaited
    fetch.  When the fetch of a call resolves, the count is 0 after it,
    and a second call right after it, resolved or rejected, leaves the
    state exactly as the first call left it.  When the fetch rejects,
    the call leaves the state as it was. *)
Theorem markAllAsRead_idempotent_when_resolved (http1 http2 : FetchOutcome) (s : Manager) :
  let s1 := state_of (markAllAsRead API_BASE_URL plat http1 s) in
  let s2 := state_of (markAllAsRead API_BASE_URL plat http2 s1) in
  match http1 with
  | Resolved _ => unreadCount s1 = Int 0 /\ unreadCount s2 = Int 0 /\ s2 = s1
  | Rejected => s1 = s
  end.
Proof.
  destruct s as [sock dev uid reg key ls u att cap busy].
  unfold_methods; unfold state_of, try_catch, bind, read, tell, update, ret, throw;
    simpl.
  destruct sock, http1, http2; exec; auto.
Qed.

(** ** The initialisation cap *)

Lemma initialize_in_progress env uid s :
  isInitializing s = true ->
  initialize API_BASE_URL plat env uid s = (Ret InProgress, s, []).
Proof.
  intros H. destruct s as [sock dev u reg key ls n att cap busy].
  simpl in H. subst busy. reflexivity.
Qed.

Lemma initialize_disabled env uid s :
  isInitializing s = false ->
  maxInitializationAttempts s <= initializationAttempts s ->
  initialize API_BASE_URL plat env uid s = (Ret Disabled, s, []).
Proof.
  intros H Hcap. destruct s as [sock dev u reg key ls n att cap busy].
  simpl in *. subst busy.
  unfold initialize, initialize_enter, bind, read, ret. simpl.
  apply Z.leb_le in Hcap. rewrite Hcap. reflexivity.
Qed.

(** A call that gets past the guards counts as one attempt, whether it
    ends in the try block or in the catch block, and clears the flag. *)
Lemma initialize_settles env uid s :
  isInitializing s = false ->
  let r := initialize API_BASE_URL plat env uid s in
  isInitializing (state_of r) = false /\
  maxInitializationAttempts (state_of r) = maxInitializationAttempts s /\
  initializationAttempts (state_of r) =
    (if maxInitializationAttempts s <=? initializationAttempts s
     then initializationAttempts s
     else initializationAttempts s + 1) /\
  (result_of r = Ret Disabled <->
   maxInitializationAttempts s <= initializationAttempts s) /\
  result_of r <> Ret InProgress.
Proof.
  intros H. destruct s as [sock dev u reg key ls n att cap busy].
  simpl in H. subst busy.
  unfold_methods;
    unfold state_of, result_of, try_catch, bind, read, tell, update, ret, throw.
  exec;
    repeat match goal with
           | H : (_ <=? _) = true |- _ => apply Z.leb_le in H
           | H : (_ <=? _) = false |- _ => apply Z.leb_gt in H
           end;
    repeat split; try reflexivity; try discriminate; try (intros _; assumption);
    try (intros ?; lia).
Qed.

Lemma state_of_void {A} (c : M A) s : state_of (void c s) = state_of (c s).
Proof.
  unfold void, state_of, bind, ret. destruct (c s) as [[[a|] s1] e1]; reflexivity.
Qed.

(** No operation lowers the attempt counter or changes the cap. *)
Lemma step_cap_ok (a m : Z) (op : Op) : preserves (cap_ok a m) (step op).
Proof.
  destruct op as [env uid|uid|env|ev|n http|n http|http|outcome|e c|e c|];
    try destruct ev; unfold_methods; preserve;
    match goal with
    | H : cap_ok _ _ ?s |- _ =>
        unfold cap_ok in *; destruct s; simpl in *; repeat case_match; simpl in *;
        try (split; [lia | tauto]); try assumption
    end.
Qed.

(** Once the cap is reached with no call in flight, it stays so. *)
Lemma step_disabled (op : Op) : preserves disabled (step op).
Proof.
  destruct op as [env uid|uid|env|ev|n http|n http|http|outcome|e c|e c|].
  1: { intros s [Hcap Hbusy]. unfold step. rewrite state_of_void.
       rewrite initialize_disabled by assumption. split; assumption. }
  1: { intros s [Hcap Hbusy]. unfold step. rewrite state_of_void.
       unfold initialize_enter, state_of, bind, read, ret. simpl.
       rewrite Hbusy. apply Z.leb_le in Hcap as Hle. rewrite Hle. simpl.
       split; assumption. }
  1: { intros s [Hcap Hbusy]. unfold step, state_of, bind, read, when. simpl.
       rewrite Hbusy. simpl. split; assumption. }
  all: try destruct ev; unfold_methods; preserve;
    match goal with
    | H : disabled ?s |- _ =>
        unfold disabled in *; destruct s; simpl in *; repeat case_match;
        simpl in *; assumption
    end.
Qed.

(** A call that ends in the try block or in the catch block was counted. *)
Lemma initialize_ran_counts env uid s :
  (result_of (initialize API_BASE_URL plat env uid s) = Ret Failed \/
   result_of (initialize API_BASE_URL plat env uid s) = Ret Initialized) ->
  let s' := state_of (initialize API_BASE_URL plat env uid s) in
  isInitializing s' = false /\
  maxInitializationAttempts s' = maxInitializationAttempts s /\
  initializationAttempts s' = initializationAttempts s + 1.
Proof.
  intros Hran. destruct (isInitializing s) eqn:Hbusy.
  - rewrite initialize_in_progress in Hran by assumption.
    destruct Hran; discriminate.
  - destruct (initialize_settles env uid s Hbusy) as (Hb & Hm & Ha & Hd & _).
    split; [exact Hb|]. split; [exact Hm|].
    rewrite Ha. destruct (Z.leb_spec (maxInitializationAttempts s) (initializationAttempts s))
      as [Hle|Hlt]; [|reflexivity].
    apply Hd in Hle. rewrite Hle in Hran. destruct Hran; discriminate.
Qed.

Lemma reachable_cap_ok (ops : list Op) : cap_ok 0 3 (run ops fresh).
Proof.
  apply run_preserves.
  - intros op _. apply step_cap_ok.
  - split; [simpl; lia | reflexivity].
Qed.

(** C4.  After three consecutive [initialize] calls that fail (each ends
    in the catch block), the manager is disabled for good: whatever
    happens to the session object afterwards, every further [initialize]
    returns at the attempt cap, with no effect and the state untouched;
    the counter is at least 3 from then on, while a fresh session object
    starts at 0. *)
Theorem three_failures_disable_initialize
    (before later : list Op) (env1 env2 env3 env : InitEnv)
    (uid1 uid2 uid3 uid : string) :
  let s0 := run before fresh in
  let r1 := initialize API_BASE_URL plat env1 uid1 s0 in
  let r2 := initialize API_BASE_URL plat env2 uid2 (state_of r1) in
  let r3 := initialize API_BASE_URL plat env3 uid3 (state_of r2) in
  result_of r1 = Ret Failed ->
  result_of r2 = Ret Failed ->
  result_of r3 = Ret Failed ->
  let s := run later (state_of r3) in
  initialize API_BASE_URL plat env uid s = (Ret Disabled, s, []) /\
  3 <= initializationAttempts s /\
  initializationAttempts fresh = 0.
Proof.
  intros s0 r1 r2 r3 H1 H2 H3 s.
  destruct (reachable_cap_ok before) as [Ha0 Hm0]. fold s0 in Ha0, Hm0.
  destruct (initialize_ran_counts env1 uid1 s0 (or_introl H1)) as (_ & Hm1 & Ha1).
  destruct (initialize_ran_counts env2 uid2 (state_of r1) (or_introl H2)) as (_ & Hm2 & Ha2).
  destruct (initialize_ran_counts env3 uid3 (state_of r2) (or_introl H3)) as (Hb3 & Hm3 & Ha3).
  fold r1 in Hm1, Ha1, Hm2, Ha2. fold r2 in Hm2, Ha2, Hm3, Ha3. fold r3 in Hb3, Hm3, Ha3.
  assert (Hdis : disabled (state_of r3)) by (split; [lia | exact Hb3]).
  assert (Hs : disabled s).
  { apply run_preserves; [|exact Hdis]. intros op _. apply step_disabled. }
  assert (Hcap : cap_ok 3 3 s).
  { apply run_preserves; [intros op _; apply step_cap_ok|]. split; lia. }
  destruct Hs as [Hle Hb]. destruct Hcap as [Hge _].
  split; [apply initialize_disabled; assumption|]. split; [exact Hge | reflexivity].
Qed.

(** Apart from the [initialize] calls, no operation writes the attempt
    counter or the cap. *)
Lemma step_keeps_attempts (a m : Z) (op : Op) :
  match op with
  | CallInitialize _ _ | BeginInitialize _ => False
  | _ => True
  end ->
  preserves (attempts_are a m) (step op).
Proof.
  intros Hop.
  destruct op as [env uid|uid|env|ev|n http|n http|http|outcome|e c|e c|];
    try contradiction; try destruct ev; unfold_methods; preserve;
    match goal with
    | H : attempts_are _ _ ?s |- _ =>
        unfold attempts_are in *; destruct s; simpl in *; repeat case_match;
        simpl in *; assumption
    end.
Qed.

(** An operation raises the attempt counter by one when it is an
    [initialize] call that gets past the guards, and leaves it alone
    otherwise. *)
Lemma step_counts (op : Op) (s : Manager) :
  initializationAttempts (after op s)
    = initializationAttempts s + (if counted op s then 1 else 0) /\
  maxInitializationAttempts (after op s) = maxInitializationAttempts s.
Proof.
  destruct op as [env uid|uid|env|ev|n http|n http|http|outcome|e c|e c|].
  1: { unfold NotificationManager.after, NotificationManager.step.
       rewrite state_of_void. unfold counted, passes_guards.
       destruct (isInitializing s) eqn:Hb.
       - rewrite initialize_in_progress by assumption. unfold state_of. simpl.
         split; [lia | reflexivity].
       - destruct (initialize_settles env uid s Hb) as (_ & Hm & Ha & _).
         rewrite Ha, Hm. simpl.
         destruct (maxInitializationAttempts s <=? initializationAttempts s);
           simpl; split; try reflexivity; lia. }
  1: { destruct s as [sock dev u reg key ls n att cap busy].
       unfold NotificationManager.after, NotificationManager.step, void, initialize_enter,
         counted, passes_guards, state_of, bind, read, update, ret.
       simpl. destruct busy; simpl; [split; [lia | reflexivity]|].
       destruct (cap <=? att); simpl; split; try reflexivity; lia. }
  all: match goal with
       | |- context [NotificationManager.after _ _ ?op ?s0] =>
           destruct (step_keeps_attempts (initializationAttempts s0)
                       (maxInitializationAttempts s0) op I s0 (conj eq_refl eq_refl))
             as [Ha Hm]
       end;
    unfold NotificationManager.after; rewrite Ha, Hm; simpl; split; [lia | reflexivity].
Qed.

Lemma run_counts (ops : list Op) (s : Manager) :
  initializationAttempts (run ops s)
    = initializationAttempts s + Z.of_nat (counted_calls API_BASE_URL plat ops s).
Proof.
  revert s. induction ops as [|op ops IH]; intros s; simpl; [lia|].
  rewrite IH. destruct (step_counts op s) as [-> _].
  destruct (counted op s); lia.
Qed.

(** C5.  The attempt counter counts the [initialize] calls that are not
    short-circuited, fully successful ones included: after any sequence
    of operations on a session object, in any interleaving, it is the
    number of calls that got past the two guards, and a call that ends
    in the try block has raised it by one.  Therefore, once three such
    calls have been made, a further [initialize] call is a no-op: it
    returns at a guard (the cap, or the in-progress guard while the
    third call is still awaited) with no effect, and leaves the whole
    state as it is. *)
Theorem fourth_initialize_is_noop (ops : list Op) (env : InitEnv) (uid : string) :
  let s := run ops fresh in
  initializationAttempts s = Z.of_nat (counted_calls API_BASE_URL plat ops fresh) /\
  (forall env' uid' s0,
     result_of (initialize API_BASE_URL plat env' uid' s0) = Ret Initialized ->
     initializationAttempts (state_of (initialize API_BASE_URL plat env' uid' s0))
       = initializationAttempts s0 + 1) /\
  ((3 <= counted_calls API_BASE_URL plat ops fresh)%nat ->
   initialize API_BASE_URL plat env uid s
     = (Ret (if isInitializing s then InProgress else Disabled), s, [])).
Proof.
  intros s. pose proof (run_counts ops fresh) as Hcount. fold s in Hcount.
  simpl in Hcount. split; [exact Hcount|]. split.
  - intros env' uid' s0 Hok.
    apply (initialize_ran_counts env' uid' s0 (or_intror Hok)).
  - intros Hthree. destruct (reachable_cap_ok ops) as [_ Hm]. fold s in Hm.
    destruct (isInitializing s) eqn:Hb.
    + apply initialize_in_progress. exact Hb.
    + apply initialize_disabled; [exact Hb|]. rewrite Hm, Hcount. lia.
Qed.

(** C7.  When the push-key request of an [initialize] call fails (it
    rejects, times out, or answers without a key), the call still goes
    on to the realtime channel: it ends in the try block with a socket
    in place, opening one unless a connected socket was already there;
    on a session that holds no key from before, only the push
    subscription is left out. *)
Theorem vapid_failure_still_connects (env : InitEnv) (uid : string) (s : Manager) :
  isInitializing s = false ->
  initializationAttempts s < maxInitializationAttempts s ->
  has_serviceWorker plat = true ->
  register_ok env = true ->
  vapid_failed (vapid env) = true ->
  let r := initialize API_BASE_URL plat env uid s in
  result_of r = Ret Initialized /\
  In (HttpRequest "GET" (API_BASE_URL +:+ "/notifications/vapid-public-key") [])
     (effects_of r) /\
  is_Some (socket (state_of r)) /\
  (socket_connected s = false -> existsb is_socket_open (effects_of r) = true) /\
  (vapidPublicKey s = None -> existsb is_push_setup (effects_of r) = false).
Proof.
  intros Hbusy Hcap Hsw Hreg Hvapid.
  destruct s as [sock dev u reg key ls n att cap busy].
  simpl in Hbusy, Hcap. subst busy. apply Z.leb_gt in Hcap.
  unfold_methods;
    unfold state_of, result_of, effects_of, try_catch, bind, read, tell, update, ret, throw.
  cbn. rewrite Hcap, Hsw. cbn. rewrite Hreg. cbn.
  destruct (vapid env); try discriminate Hvapid; clear Hvapid.
  all: exec; repeat split; try reflexivity; try (left; reflexivity);
    try (right; left; reflexivity); try (eexists; reflexivity);
    try (intros; discriminate); try (intros; reflexivity);
    intros; subst; unfold socket_connected, key_truthy in *; simpl in *;
    repeat case_match; try congruence; eauto.
Qed.

End Properties.

(** C1, on a session that is initialised, connected and used. *)
Lemma unreadCount_stays_count_witness :
  let ops :=
    [CallInitialize env_ok "rider-7";
     SocketDelivers connect;
     SocketDelivers (connection_verified (Int 3));
     SocketDelivers (notification_new sample_notification);
     CallMarkAsRead "n1" (Resolved 200);
     SocketDelivers (notification_badge_update (Int 0));
     CallMarkAsRead "n0" (Resolved 200);
     CallMarkAllAsRead Rejected] in
  is_count (unreadCount fresh) = true /\
  forallb server_counts_ok ops = true /\
  Forall (fun s' => is_count (unreadCount s') = true)
    (states sample_base sample_browser ops fresh).
Proof.
  intros ops. split; [reflexivity|]. split; [reflexivity|].
  apply (unreadCount_stays_count sample_base sample_browser ops fresh); reflexivity.
Defined.

(** C1 as stated fails: a badge update carrying -1 is stored as it is. *)
Lemma badge_update_negative_count :
  let ops :=
    [CallInitialize env_ok "rider-7";
     SocketDelivers connect;
     SocketDelivers (notification_badge_update (Int (-1)))] in
  unreadCount (run sample_base sample_browser ops fresh) = Int (-1) /\
  is_count (unreadCount (run sample_base sample_browser ops fresh)) = false.
Proof. vm_compute. split; reflexivity. Qed.

(** C4, in a browser without service workers, where every call fails. *)
Lemma three_failures_disable_initialize_witness :
  let init := initialize sample_base sample_old_browser in
  let s0 := run sample_base sample_old_browser [] fresh in
  let r1 := init env_ok "rider-7" s0 in
  let r2 := init env_ok "rider-7" (state_of r1) in
  let r3 := init env_ok "rider-7" (state_of r2) in
  let s :=
    run sample_base sample_old_browser
      [CallDisconnect; BeginInitialize "rider-7"; ResumeInitialize env_ok]
      (state_of r3) in
  result_of r1 = Ret Failed /\ result_of r2 = Ret Failed /\
  result_of r3 = Ret Failed /\
  init env_ok "rider-7" s = (Ret Disabled, s, []).
Proof.
  intros init s0 r1 r2 r3 s.
  split; [reflexivity|]. split; [reflexivity|]. split; [reflexivity|].
  apply (three_failures_disable_initialize sample_base sample_old_browser
           [] [CallDisconnect; BeginInitialize "rider-7"; ResumeInitialize env_ok]
           env_ok env_ok env_ok env_ok "rider-7" "rider-7" "rider-7" "rider-7");
    reflexivity.
Defined.

(** C5, with one failed and two successful calls, the last one begun
    before and finished after a delivery on the channel and a call that
    returned at the in-progress guard. *)
Lemma fourth_initialize_is_noop_witness :
  let ops :=
    [CallInitialize env_no_worker "rider-7";
     CallInitialize env_ok "rider-7";
     BeginInitialize "rider-7";
     CallInitialize env_ok "rider-7";
     SocketDelivers (notification_new sample_notification);
     ResumeInitialize env_no_key] in
  let s := run sample_base sample_browser ops fresh in
  (3 <= counted_calls sample_base sample_browser ops fresh)%nat /\
  initializationAttempts s = 3 /\
  initialize sample_base sample_browser env_ok "rider-7" s = (Ret Disabled, s, []).
Proof.
  intros ops s.
  destruct (fourth_initialize_is_noop sample_base sample_browser ops env_ok "rider-7")
    as (Hcount & _ & Hnoop).
  split; [vm_compute; lia|].
  split; [exact Hcount|].
  apply Hnoop. vm_compute. lia.
Defined.

(** C7, on a fresh session whose push-key request times out. *)
Lemma vapid_failure_still_connects_witness :
  let r := initialize sample_base sample_browser env_no_key "rider-7" fresh in
  isInitializing fresh = false /\
  initializationAttempts fresh < maxInitializationAttempts fresh /\
  has_serviceWorker sample_browser = true /\
  register_ok env_no_key = true /\
  vapid_failed (vapid env_no_key) = true /\
  result_of r = Ret Initialized /\
  is_Some (socket (state_of r)) /\
  existsb is_socket_open (effects_of r) = true /\
  existsb is_push_setup (effects_of r) = false.
Proof.
  intros r.
  split; [reflexivity|]. split; [reflexivity|]. split; [reflexivity|].
  split; [reflexivity|]. split; [reflexivity|].
  destruct (vapid_failure_still_connects sample_base sample_browser
              env_no_key "rider-7" fresh eq_refl eq_refl eq_refl eq_refl eq_refl)
    as (Hres & _ & Hsock & Hopen & Hpush).
  split; [exact Hres|]. split; [exact Hsock|].
  split; [exact (Hopen eq_refl) | exact (Hpush eq_refl)].
Defined.

(** C3, where the count is 5 and the fetch resolves with status 500. *)
Lemma markAsRead_decrements_when_fetch_resolves_witness :
  let s :=
    run sample_base sample_browser
      [CallInitialize env_ok "rider-7"; SocketDelivers connect;
       SocketDelivers (connection_verified (Int 5))] fresh in
  unreadCount s = Int 5 /\ 5 <= MAX_SAFE_INTEGER /\
  unreadCount (state_of (markAsRead sample_base sample_browser "n1" (Resolved 500) s))
    = Int 4.
Proof.
  intros s.
  assert (Hsafe : 5 <= MAX_SAFE_INTEGER) by (unfold MAX_SAFE_INTEGER; lia).
  split; [reflexivity|]. split; [exact Hsafe|].
  pose proof (markAsRead_decrements_when_fetch_resolves
                sample_base sample_browser "n1" (Resolved 500) s) as [_ H].
  change (5 <= MAX_SAFE_INTEGER ->
          state_of (markAsRead sample_base sample_browser "n1" (Resolved 500) s)
            = set_unreadCount (Int 4) s) in H.
  rewrite (H Hsafe). reflexivity.
Defined.

(** C3 as stated fails: with 5 unread and a fetch that rejects, the
    count stays 5, it does not become 4. *)
Lemma markAsRead_rejected_keeps_count :
  let s :=
    run sample_base sample_browser
      [CallInitialize env_ok "rider-7"; SocketDelivers connect;
       SocketDelivers (connection_verified (Int 5))] fresh in
  unreadCount s = Int 5 /\
  unreadCount (state_of (markAsRead sample_base sample_browser "n1" Rejected s)) = Int 5 /\
  unreadCount (state_of (markAsRead sample_base sample_browser "n1" Rejected s)) <> Int (5 - 1).
Proof. vm_compute. repeat split; discriminate. Qed.

(** C6 as stated fails: with 5 unread and fetches that reject, the count
    is 5, not 0, after each of two calls in a row. *)
Lemma markAllAsRead_rejected_keeps_count :
  let s :=
    run sample_base sample_browser
      [CallInitialize env_ok "rider-7"; SocketDelivers connect;
       SocketDelivers (connection_verified (Int 5))] fresh in
  let s1 := state_of (markAllAsRead sample_base sample_browser Rejected s) in
  let s2 := state_of (markAllAsRead sample_base sample_browser Rejected s1) in
  unreadCount s1 = Int 5 /\ unreadCount s2 = Int 5 /\ unreadCount s1 <> Int 0.
Proof. vm_compute. repeat split; discriminate. Qed.

End ManagerProofs.

(** * Properties of the background worker *)

Module WorkerProofs.
Import Js ServiceWorker.

(** ** Fetch interception *)

Section Fetch.

Variable origin : string.
Variable network : string -> NetResult.
Variable storage : list (string * gmap string Response).

(** C8.  A same-origin request whose URL contains the API path and whose
    network fetch fails is answered with the offline envelope, a JSON
    body with [success] false and a message; a request outside the API
    path that hits the cache never makes the worker fetch from the
    network: when it is same-origin it is answered from the cache, and
    when it is cross-origin the worker does not intercept it. *)
Theorem fetch_offline_envelope_and_cache_first (url : string) :
  (startsWith url origin = true -> includes url "/api/" = true ->
   network url = NetError ->
   on_fetch origin network storage url
     = (RespondWith (Some offline_response), [NetFetch url]) /\
   body offline_response = JsonText offline_envelope /\
   get offline_envelope "success" = Some (JBool false) /\
   get offline_envelope "message" = Some (JStr "Offline")) /\
  (forall r, includes url "/api/" = false ->
   caches_match storage url = Some r ->
   existsb is_net_fetch (snd (on_fetch origin network storage url)) = false /\
   (startsWith url origin = true ->
    on_fetch origin network storage url = (RespondWith (Some r), [CacheLookup url])) /\
   (startsWith url origin = false ->
    on_fetch origin network storage url = (NotIntercepted, []))).
Proof.
  unfold on_fetch. split.
  - intros Ho Hapi Hnet. rewrite Ho, Hapi, Hnet. simpl. repeat split.
  - intros r Hapi Hhit. rewrite Hapi, Hhit.
    destruct (startsWith url origin); simpl; repeat split; congruence.
Qed.

End Fetch.

(** ** Notification clicks *)

Section Click.

Variable origin : string.
Variable has_openWindow : bool.

Lemma find_none_forall (l : list Client) :
  forallb (fun c => negb (app_window origin c)) l = true ->
  List.find (app_window origin) l = None.
Proof.
  induction l as [|c l IH]; simpl; [reflexivity|].
  destruct (app_window origin c); simpl; [discriminate | exact IH].
Qed.

Lemma get_not_nullish (v : jsval) (k : string) :
  nullish v = false -> get v k = Some (default JUndefined (get v k)).
Proof. destruct v; simpl; intros H; try discriminate; reflexivity. Qed.

(** C9, amended.  The notification is closed first in every case.  On
    "dismiss" nothing else happens.  On any other action, for a
    notification whose data is an object and once the window list is
    obtained: if a window of the app's origin is open, the first such
    window gets a focus call, no window is opened, and when the focus
    call resolves exactly one [NOTIFICATION_CLICKED] message with the
    resolved url, the notification id and the action is posted to it; if
    none is open and the platform has [clients.openWindow], a window is
    opened at the resolved target and nothing is focused or posted. *)
Theorem click_routing (matched : option (list Client)) (ev : ClickEvent) :
  let effects := on_notificationclick origin has_openWindow matched ev in
  head effects = Some CloseNotification /\
  (action ev = "dismiss" -> effects = [CloseNotification]) /\
  (forall clientList,
     action ev <> "dismiss" ->
     nullish (notification_data ev) = false ->
     matched = Some clientList ->
     (forall c, List.find (app_window origin) clientList = Some c ->
        In c clientList /\ app_window origin c = true /\
        In (FocusClient (client_id c)) effects /\
        existsb is_open effects = false /\
        (focus_resolves c = true ->
         filter (fun e => is_post e = true) effects
           = [PostMessage (client_id c) (clicked_message ev)])) /\
     (forallb (fun c => negb (app_window origin c)) clientList = true ->
      has_openWindow = true ->
      effects = [CloseNotification; MatchAllWindows; OpenWindow (resolved_target ev)])).
Proof.
  intros effects. subst effects. unfold on_notificationclick.
  split; [reflexivity|]. split.
  - intros ->. reflexivity.
  - intros clientList Hact Hdata ->.
    apply String.eqb_neq in Hact. rewrite Hact.
    unfold clicked_message, resolved_target.
    rewrite (get_not_nullish _ "targetUrl" Hdata).
    rewrite (get_not_nullish _ "notificationId" Hdata). simpl.
    split.
    + intros c Hfind. rewrite Hfind.
      destruct (find_some _ _ Hfind) as [Hin Happ].
      split; [exact Hin|]. split; [exact Happ|].
      split; [right; right; left; reflexivity|].
      split; [destruct (focus_resolves c); reflexivity|].
      intros ->. reflexivity.
    + intros Hnone ->. rewrite (find_none_forall _ Hnone). reflexivity.
Qed.

End Click.

(** ** Push receipt *)

Lemma get_not_nullish_body (v : jsval) :
  nullish v = false -> Some (default JUndefined (get v "body")) = get v "body".
Proof. destruct v; simpl; intros H; try discriminate; reflexivity. Qed.

Lemma absent_or_else (v : jsval) (k : string) (d : jsval) :
  absent v k = true -> or_else (default JUndefined (get v k)) d = d.
Proof.
  unfold absent. destruct (get v k) as [[]|]; simpl; intros H;
    try discriminate; reflexivity.
Qed.

Lemma options_of_not_nullish (v : jsval) :
  nullish v = false ->
  options_of v =
    Some {| opt_body := default JUndefined (get v "body");
            opt_icon := or_else (default JUndefined (get v "icon")) default_icon;
            opt_badge := or_else (default JUndefined (get v "badge")) default_badge;
            opt_tag := or_else (default JUndefined (get v "tag")) default_tag;
            opt_requireInteraction :=
              or_else (default JUndefined (get v "requireInteraction")) (JBool false);
            opt_vibrate := or_else (default JUndefined (get v "vibrate")) default_vibrate;
            opt_data := or_else (default JUndefined (get v "data")) default_data;
            opt_actions := or_else (default JUndefined (get v "actions")) default_actions;
            opt_silent := false |}.
Proof. destruct v; simpl; intros H; try discriminate; reflexivity. Qed.

(** C10, amended.  The push listener derives display options for every
    payload except one that parses to [null].  With no payload, or with
    a payload that is not JSON, every option takes its default, the body
    being the default text with no payload and the payload's plain text
    when parsing fails.  With a JSON payload, icon, badge icon, tag,
    requireInteraction, vibration pattern, data and action buttons take
    their defaults whenever the field is absent, while the body is the
    payload's [body] as it is, [undefined] when absent. *)
Theorem push_options_defaults (d : PushData) :
  (push_options d = None <-> nullish (notificationData d) = true) /\
  (forall o, push_options d = Some o ->
     (payload_lacks d "icon" = true -> opt_icon o = default_icon) /\
     (payload_lacks d "badge" = true -> opt_badge o = default_badge) /\
     (payload_lacks d "tag" = true -> opt_tag o = default_tag) /\
     (payload_lacks d "requireInteraction" = true ->
      opt_requireInteraction o = JBool false) /\
     (payload_lacks d "vibrate" = true -> opt_vibrate o = default_vibrate) /\
     (payload_lacks d "data" = true -> opt_data o = default_data) /\
     (payload_lacks d "actions" = true -> opt_actions o = default_actions) /\
     match d with
     | NoData => opt_body o = default_body
     | Unparseable text => opt_body o = JStr text
     | Parsed v => get v "body" = Some (opt_body o)
     end).
Proof.
  unfold push_options. split.
  - destruct (nullish (notificationData d)) eqn:Hn.
    + split; [reflexivity|]. intros _.
      destruct (notificationData d); try discriminate; reflexivity.
    + rewrite (options_of_not_nullish _ Hn). split; discriminate.
  - intros o Ho. destruct d as [|text|v].
    + inversion Ho; subst; clear Ho. simpl. repeat split; reflexivity.
    + inversion Ho; subst; clear Ho. simpl. repeat split; reflexivity.
    + simpl in *. destruct (nullish v) eqn:Hn.
      * destruct v; try discriminate Hn; discriminate Ho.
      * rewrite (options_of_not_nullish _ Hn) in Ho.
        inversion Ho; subst; clear Ho. simpl.
        repeat split; try (apply absent_or_else).
        symmetry. apply get_not_nullish_body. exact Hn.
Qed.

(** C8, offline: an API request gets the envelope, the cached shell is
    served without the network. *)
Lemma fetch_offline_envelope_and_cache_first_witness :
  let api := "https://water.example/api/notifications/pending" in
  let shell := "https://water.example/index.html" in
  (startsWith api sample_origin = true /\ includes api "/api/" = true /\
   offline_network api = NetError /\
   on_fetch sample_origin offline_network sample_storage api
     = (RespondWith (Some offline_response), [NetFetch api])) /\
  (includes shell "/api/" = false /\
   caches_match sample_storage shell = Some shell_response /\
   on_fetch sample_origin offline_network sample_storage shell
     = (RespondWith (Some shell_response), [CacheLookup shell])).
Proof.
  intros api shell. split.
  - split; [reflexivity|]. split; [reflexivity|]. split; [reflexivity|].
    apply (fetch_offline_envelope_and_cache_first
             sample_origin offline_network sample_storage api); reflexivity.
  - split; [reflexivity|]. split; [reflexivity|].
    apply (fetch_offline_envelope_and_cache_first
             sample_origin offline_network sample_storage shell);
      reflexivity.
Defined.

(** C9, with one open window of the app. *)
Lemma click_routing_witness :
  let effects := on_notificationclick sample_origin true (Some [app_client]) view_click in
  action view_click <> "dismiss" /\
  nullish (notification_data view_click) = false /\
  List.find (app_window sample_origin) [app_client] = Some app_client /\
  focus_resolves app_client = true /\
  In (FocusClient 1) effects /\
  filter (fun e => is_post e = true) effects
    = [PostMessage 1 (clicked_message view_click)].
Proof.
  intros effects.
  assert (Hact : action view_click <> "dismiss") by discriminate.
  split; [exact Hact|]. split; [reflexivity|]. split; [reflexivity|].
  split; [reflexivity|].
  destruct (click_routing sample_origin true (Some [app_client]) view_click)
    as (_ & _ & Hother).
  destruct (Hother [app_client] Hact eq_refl eq_refl) as [Hwin _].
  destruct (Hwin app_client eq_refl) as (_ & _ & Hfocus & _ & Hpost).
  split; [exact Hfocus | exact (Hpost eq_refl)].
Defined.

(** C9 as stated fails: with no window open and no [clients.openWindow]
    on the platform, a "view" click opens no window. *)
Lemma click_without_openWindow :
  let effects := on_notificationclick sample_origin false (Some []) view_click in
  action view_click <> "dismiss" /\
  effects = [CloseNotification; MatchAllWindows] /\
  ~ In (OpenWindow (resolved_target view_click)) effects.
Proof.
  split; [discriminate|]. split; [reflexivity|].
  simpl. intros [H|[H|[]]]; discriminate.
Qed.

(** C10, on a payload with a title only. *)
Lemma push_options_defaults_witness :
  exists o,
    push_options bare_payload = Some o /\
    payload_lacks bare_payload "icon" = true /\
    payload_lacks bare_payload "vibrate" = true /\
    opt_icon o = default_icon /\ opt_vibrate o = default_vibrate.
Proof.
  destruct (push_options bare_payload) as [o|] eqn:Ho; [|discriminate Ho].
  exists o. split; [reflexivity|]. split; [reflexivity|]. split; [reflexivity|].
  destruct (push_options_defaults bare_payload) as [_ H].
  destruct (H o Ho) as (Hicon & _ & _ & _ & Hvib & _).
  split; [exact (Hicon eq_refl) | exact (Hvib eq_refl)].
Defined.

(** C10 as stated fails: a JSON payload without a body gets no default
    body, the option is left [undefined]. *)
Lemma push_body_has_no_default :
  payload_lacks bare_payload "body" = true /\
  opt_body <$> push_options bare_payload = Some JUndefined /\
  opt_body <$> push_options bare_payload <> Some default_body.
Proof. split; [reflexivity|]. split; [reflexivity | discriminate]. Qed.

End WorkerProofs.

(** * More properties of the notification manager *)

Module ManagerMoreProofs.
Import Js NotificationManager ManagerObservers ManagerProofs.

(** ** Exceptions never leave a method *)

Section Returns.
Context {A B : Type}.

Lemma returns_ret (a : A) : returns (ret a).
Proof. intros s. discriminate. Qed.

Lemma returns_tell e : returns (tell e).
Proof. intros s. discriminate. Qed.

Lemma returns_read (f : Manager -> A) : returns (read f).
Proof. intros s. discriminate. Qed.

Lemma returns_update f : returns (update f).
Proof. intros s. discriminate. Qed.

Lemma returns_bind (c : M A) (k : A -> M B) :
  returns c -> (forall a, returns (k a)) -> returns (bind c k).
Proof.
  intros Hc Hk s. specialize (Hc s). unfold result_of, bind in *.
  destruct (c s) as [[[a|] s1] e1]; simpl in *; [|congruence].
  specialize (Hk a s1). unfold result_of in Hk.
  destruct (k a s1) as [[r2 s2] e2]. exact Hk.
Qed.

Lemma returns_try_catch (c h : M A) : returns h -> returns (try_catch c h).
Proof.
  intros Hh s. unfold result_of, try_catch.
  destruct (c s) as [[[a|] s1] e1]; simpl; [discriminate|].
  specialize (Hh s1). unfold result_of in Hh.
  destruct (h s1) as [[r2 s2] e2]. exact Hh.
Qed.

End Returns.

Lemma returns_foldr {X} (f : X -> M unit) (l : list X) :
  (forall x, returns (f x)) ->
  returns (foldr (fun x k => f x ;;; k) (ret tt) l).
Proof.
  intros Hf. induction l as [|x l IH]; simpl.
  - apply returns_ret.
  - apply returns_bind; [apply Hf | intros _; exact IH].
Qed.

Ltac returns_step :=
  first
    [ simple apply returns_ret | simple apply returns_tell
    | simple apply returns_read | simple apply returns_update
    | simple apply returns_try_catch
    | simple apply returns_bind; [|intros ?]
    | simple apply returns_foldr; intros ?
    | match goal with
      | |- returns (match ?x with _ => _ end) => destruct x
      end ].

(** ** Silence after [disconnect] *)

Section Quiet.
Context {A B : Type}.

Lemma quiet_ret (a : A) : quiet (ret a).
Proof. intros s Hs. split; [exact Hs | reflexivity]. Qed.

Lemma quiet_throw : quiet (@throw A).
Proof. intros s Hs. split; [exact Hs | reflexivity]. Qed.

Lemma quiet_read (f : Manager -> A) : quiet (read f).
Proof. intros s Hs. split; [exact Hs | reflexivity]. Qed.

Lemma quiet_tell e : existsb is_listener_call e = false -> quiet (tell e).
Proof. intros He s Hs. split; [exact Hs | exact He]. Qed.

Lemma quiet_update f :
  (forall s, listeners s = ∅ -> listeners (f s) = ∅) -> quiet (update f).
Proof. intros Hf s Hs. split; [apply Hf, Hs | reflexivity]. Qed.

Lemma quiet_bind (c : M A) (k : A -> M B) :
  quiet c -> (forall a, quiet (k a)) -> quiet (bind c k).
Proof.
  intros Hc Hk s Hs. destruct (Hc s Hs) as [Hl He].
  unfold state_of, effects_of, bind in *.
  destruct (c s) as [[[a|] s1] e1]; simpl in *; [|split; assumption].
  destruct (Hk a s1 Hl) as [Hl2 He2]. unfold state_of, effects_of in *.
  destruct (k a s1) as [[r2 s2] e2]. simpl in *.
  split; [exact Hl2|]. rewrite existsb_app, He, He2. reflexivity.
Qed.

Lemma quiet_try_catch (c h : M A) : quiet c -> quiet h -> quiet (try_catch c h).
Proof.
  intros Hc Hh s Hs. destruct (Hc s Hs) as [Hl He].
  unfold state_of, effects_of, try_catch in *.
  destruct (c s) as [[[a|] s1] e1]; simpl in *; [split; assumption|].
  destruct (Hh s1 Hl) as [Hl2 He2]. unfold state_of, effects_of in *.
  destruct (h s1) as [[r2 s2] e2]. simpl in *.
  split; [exact Hl2|]. rewrite existsb_app, He, He2. reflexivity.
Qed.

End Quiet.

Lemma quiet_emit event arg : quiet (emit event arg).
Proof.
  intros s Hs. unfold emit, state_of, effects_of, bind, read. simpl.
  rewrite Hs, lookup_empty. simpl. split; [exact Hs | reflexivity].
Qed.

Lemma quiet_foldr {X} (f : X -> M unit) (l : list X) :
  (forall x, quiet (f x)) ->
  quiet (foldr (fun x k => f x ;;; k) (ret tt) l).
Proof.
  intros Hf. induction l as [|x l IH]; simpl.
  - apply quiet_ret.
  - apply quiet_bind; [apply Hf | intros _; exact IH].
Qed.

Ltac quiet_step :=
  first
    [ simple apply quiet_emit
    | simple apply quiet_ret | simple apply quiet_throw | simple apply quiet_read
    | simple apply quiet_tell; reflexivity
    | simple apply quiet_try_catch
    | simple apply quiet_bind; [|intros ?]
    | simple apply quiet_foldr; intros ?
    | simple apply quiet_update; intros ? ?
    | match goal with
      | |- quiet (match ?x with _ => _ end) => destruct x
      end ].

Ltac unfold_methods_but_emit :=
  unfold step, void, initialize, initialize_enter, initialize_body,
    registerServiceWorker, fetchVapidPublicKey, requestPermission,
    subscribeToPushNotifications, sendSubscriptionToBackend, connectWebSocket,
    setupServiceWorkerListener, setupVisibilityChangeListener, on_socket,
    fetchMissedNotifications, markAsClicked, markAsRead, markAllAsRead,
    disconnect, off, showInAppNotification, playNotificationSound,
    updateBadge, fetch, socket_emit, when.

Section More.

Variable API_BASE_URL : string.
Variable plat : Platform.

Abbreviation step := (step API_BASE_URL plat).
Abbreviation after := (after API_BASE_URL plat).
Abbreviation run := (run API_BASE_URL plat).
Abbreviation happen := (happen API_BASE_URL plat).
Abbreviation effects_along := (effects_along API_BASE_URL plat).

(** X1.  No call of a method ends with an exception.  Whatever the
    state and whatever the awaited calls do, [initialize] (whole, or
    split at its first await), [markAsRead], [markAsClicked],
    [markAllAsRead], the poll for missed notifications, [on], [off] and
    [disconnect] return normally: a registration, a fetch or a
    subscription that fails is caught inside the method.  Listener
    callbacks are taken not to throw.  The handlers of the channel are
    not covered: they read their payload outside any [try]. *)
Theorem no_method_call_throws (op : Op) (s : Manager) :
  is_method_call op = true ->
  result_of (step op s) = Ret tt.
Proof.
  intros Hop.
  assert (H : returns (step op)).
  { destruct op as [env uid|uid|env|ev|n http|n http|http|outcome|e c|e c|];
      try discriminate Hop; unfold_methods; repeat returns_step. }
  specialize (H s). destruct (result_of (step op s)) as [[]|]; congruence.
Qed.

Lemma on_socket_quiet (ev : SocketEvent) : quiet (on_socket plat ev).
Proof.
  destruct ev; unfold_methods_but_emit; repeat quiet_step;
    try (match goal with
         | H : listeners ?s = ∅ |- _ => destruct s; simpl in *; try assumption
         end);
    try reflexivity.
Qed.

Lemma step_quiet (op : Op) : is_on op = false -> quiet (step op).
Proof.
  intros Hop.
  destruct op as [env uid|uid|env|ev|n http|n http|http|outcome|e c|e c|];
    try discriminate Hop.
  4: { unfold NotificationManager.step. apply quiet_bind; [apply quiet_read|].
       intros k. unfold when. destruct (bool_decide (is_Some k));
         [apply on_socket_quiet | apply quiet_ret]. }
  all: unfold_methods_but_emit; repeat quiet_step;
    try (match goal with
         | H : listeners ?s = ∅ |- _ => destruct s; simpl in *; try assumption
         end);
    try reflexivity.
  subst. rewrite lookup_empty. reflexivity.
Qed.

Lemma on_replaced_socket_quiet (ev : SocketEvent) : quiet (on_replaced_socket plat ev).
Proof.
  destruct ev; try apply on_socket_quiet;
    unfold on_replaced_socket, socket_emit; repeat quiet_step.
Qed.

Lemma happen_quiet (h : Happening) : registers h = false -> quiet (happen h).
Proof.
  destruct h as [op|ev]; simpl; intros Hh;
    [apply step_quiet; exact Hh | apply on_replaced_socket_quiet].
Qed.

Lemma effects_along_quiet (hs : list Happening) :
  forallb (fun h => negb (registers h)) hs = true ->
  forall s, listeners s = ∅ ->
    existsb is_listener_call (effects_along hs s) = false.
Proof.
  induction hs as [|h hs IH]; intros Hhs s Hs; simpl; [reflexivity|].
  simpl in Hhs. apply andb_true_iff in Hhs as [Hh Hrest].
  apply negb_true_iff in Hh.
  destruct (happen_quiet h Hh s Hs) as [Hl He].
  rewrite existsb_app, He. simpl. apply IH; assumption.
Qed.

Lemma disconnected_calls_only arg (l : list nat) :
  forallb (fun e => negb (is_listener_call e) || is_call_of "disconnected" e)
    (map (fun cb => ListenerCall cb "disconnected" arg) l) = true.
Proof. induction l as [|cb l IH]; simpl; [reflexivity | exact IH]. Qed.

(** X2.  [disconnect] clears the socket handle and every listener, and
    keeps the count and the attempt counter.  While it runs, the only
    listeners it can reach are those of "disconnected", through the
    closing socket's own event.  Once it has returned, and until [on] is
    called again, nothing reaches a listener: no method call, no event
    of a socket opened since, and no event of a socket that was
    replaced and left open either. *)
Theorem disconnect_silences_listeners (hs : list Happening) (s : Manager) :
  forallb (fun h => negb (registers h)) hs = true ->
  let r := step CallDisconnect s in
  let s' := state_of r in
  socket s' = None /\ listeners s' = ∅ /\
  unreadCount s' = unreadCount s /\
  initializationAttempts s' = initializationAttempts s /\
  forallb (fun e => negb (is_listener_call e) || is_call_of "disconnected" e)
    (effects_of r) = true /\
  existsb is_listener_call (effects_along hs s') = false.
Proof.
  intros Hhs r s'.
  assert (Hs' : socket s' = None /\ listeners s' = ∅ /\
                unreadCount s' = unreadCount s /\
                initializationAttempts s' = initializationAttempts s /\
                forallb (fun e => negb (is_listener_call e)
                                  || is_call_of "disconnected" e)
                  (effects_of r) = true).
  { subst s' r. destruct s as [sock dev u reg key ls n att cap busy].
    unfold NotificationManager.step, disconnect, emit, when, state_of, effects_of,
      bind, read, tell, update, ret.
    simpl. destruct sock as [[[|]]|]; simpl; try (repeat split; reflexivity).
    destruct (ls !! "disconnected") as [l|]; simpl; repeat split.
    rewrite app_nil_r. apply disconnected_calls_only. }
  destruct Hs' as (Hsock & Hls & Hn & Ha & Hcalls).
  repeat split; try assumption.
  apply effects_along_quiet; assumption.
Qed.

(** ** The listener registry *)

Lemma emit_effects event arg s :
  effects_of (emit event arg s)
    = map (fun cb => ListenerCall cb event arg) (registered event s).
Proof.
  unfold emit, effects_of, bind, read, registered. simpl.
  destruct (listeners s !! event); reflexivity.
Qed.

Lemma listeners_on event cb s :
  listeners (state_of (on event cb s))
    = <[event := registered event s ++ [cb]]> (listeners s).
Proof. destruct s. reflexivity. Qed.

Lemma listeners_off event cb s :
  listeners (state_of (off event cb s))
    = match listeners s !! event with
      | Some l => <[event := remove_first cb l]> (listeners s)
      | None => listeners s
      end.
Proof.
  destruct s as [sock dev uid reg key ls u att cap busy].
  unfold off, state_of, update. simpl. destruct (ls !! event); reflexivity.
Qed.

Lemma remove_first_notin cb (l : list nat) :
  ~ In cb l -> remove_first cb l = l.
Proof.
  induction l as [|x l IH]; simpl; [reflexivity|]. intros Hn.
  destruct (Nat.eqb_spec x cb) as [->|Hne]; [exfalso; apply Hn; left; reflexivity|].
  rewrite IH; [reflexivity|]. intros Hin. apply Hn. right. exact Hin.
Qed.

Lemma remove_first_app_notin cb (l : list nat) :
  ~ In cb l -> remove_first cb (l ++ [cb]) = l.
Proof.
  induction l as [|x l IH]; simpl.
  - intros _. rewrite Nat.eqb_refl. reflexivity.
  - intros Hn. destruct (Nat.eqb_spec x cb) as [->|Hne];
      [exfalso; apply Hn; left; reflexivity|].
    rewrite IH; [reflexivity|]. intros Hin. apply Hn. right. exact Hin.
Qed.

(** X3.  A callback registered with [on] is called by [emit] for that
    event after the callbacks registered before it, with the emitted
    argument; what is emitted for other events is not affected. *)
Theorem on_registers_last (event : string) (cb : nat) (arg : EmitArg) (s : Manager) :
  let s' := state_of (on event cb s) in
  effects_of (emit event arg s')
    = effects_of (emit event arg s) ++ [ListenerCall cb event arg] /\
  (forall other, other <> event ->
     effects_of (emit other arg s') = effects_of (emit other arg s)).
Proof.
  intros s'. subst s'. rewrite !emit_effects. split.
  - unfold registered at 1. rewrite listeners_on, lookup_insert_eq. simpl.
    rewrite map_app. reflexivity.
  - intros other Hne. rewrite !emit_effects. unfold registered at 1.
    rewrite listeners_on, lookup_insert_ne by congruence. reflexivity.
Qed.

(** X4.  [off] takes out the first registration of the callback only.
    So [on] followed by [off] gives back what every [emit] does when the
    callback was not registered for the event before; a callback that
    was already registered stays registered once, now as the last. *)
Theorem on_then_off (event : string) (cb : nat) (s : Manager) :
  let s' := state_of (off event cb (state_of (on event cb s))) in
  registered event s' = remove_first cb (registered event s ++ [cb]) /\
  (~ In cb (registered event s) ->
   forall ev arg, effects_of (emit ev arg s') = effects_of (emit ev arg s)).
Proof.
  intros s'.
  assert (Hl : listeners s'
               = <[event := remove_first cb (registered event s ++ [cb])]>
                   (<[event := registered event s ++ [cb]]> (listeners s))).
  { subst s'. rewrite listeners_off, listeners_on, lookup_insert_eq. reflexivity. }
  assert (Hreg : registered event s' = remove_first cb (registered event s ++ [cb])).
  { unfold registered at 1. rewrite Hl, lookup_insert_eq. reflexivity. }
  split; [exact Hreg|].
  intros Hn ev arg. rewrite !emit_effects.
  destruct (String.eqb_spec ev event) as [->|Hne].
  - rewrite Hreg, remove_first_app_notin by assumption. reflexivity.
  - f_equal. unfold registered.
    rewrite Hl, !lookup_insert_ne by congruence. reflexivity.
Qed.

(** X5.  [off] for a callback that is not registered for the event, or
    for an event nobody listens to, leaves the manager as it was. *)
Theorem off_unregistered_is_noop (event : string) (cb : nat) (s : Manager) :
  ~ In cb (registered event s) ->
  off event cb s = (Ret tt, s, []).
Proof.
  intros Hn. unfold off, update, registered in *.
  destruct (listeners s !! event) as [l|] eqn:Hl; [|reflexivity].
  simpl in Hn. rewrite remove_first_notin by assumption.
  rewrite insert_id by assumption. destruct s; reflexivity.
Qed.

(** ** The badge, in the foreground and in the worker *)

(** X6.  The worker and the foreground agree on the badge where both
    have the badge API.  On the [UPDATE_BADGE] message that
    [updateBadge] posts: when the page has [setAppBadge] and the worker
    has [setAppBadge] and [clearAppBadge], the worker makes the very
    badge call that [updateBadge] made itself, for every count,
    [undefined] and [NaN] included; a page without [setAppBadge] makes
    no badge call itself; a worker without [setAppBadge] makes none;
    and a worker with [setAppBadge] but without [clearAppBadge] ends
    with a TypeError when the count is not above zero. *)
Theorem worker_badge_agrees (count : jsnum) (s : Manager)
    (worker_set worker_clear : bool) (m : WorkerLifecycle.Message) :
  In m (omap WorkerLifecycle.as_message (effects_of (updateBadge plat count s))) ->
  let page := omap WorkerLifecycle.as_control (effects_of (updateBadge plat count s)) in
  let worker := WorkerLifecycle.on_message worker_set worker_clear m in
  (has_setAppBadge plat = true -> worker_set = true -> worker_clear = true ->
   worker = Some page) /\
  (has_setAppBadge plat = false -> page = []) /\
  (worker_set = false -> worker = Some []) /\
  (worker_set = true -> worker_clear = false ->
   worker = if num_gt0 count then Some [WorkerLifecycle.CallSetAppBadge count] else None).
Proof.
  intros Hin page worker.
  assert (Hor : num_gt0 (num_or count (Int 0)) = num_gt0 count /\
                (num_gt0 count = true -> num_or count (Int 0) = count)).
  { destruct count as [| |z]; simpl; try (split; [reflexivity | discriminate]).
    unfold num_or, num_truthy. destruct (Z.eqb_spec z 0) as [->|Hz]; simpl;
      split; try reflexivity; discriminate. }
  destruct Hor as [Hgt Hsame].
  assert (Hm : m = WorkerLifecycle.UPDATE_BADGE count).
  { revert Hin. unfold updateBadge, when, effects_of, bind, read, tell, ret. simpl.
    destruct (has_setAppBadge plat), (num_gt0 count),
      (registration s && worker_active plat); simpl; intros H; intuition congruence. }
  subst m page worker. unfold WorkerLifecycle.on_message. rewrite Hgt.
  unfold updateBadge, when, effects_of, bind, read, tell, ret. simpl.
  repeat split.
  - intros -> -> ->. destruct (num_gt0 count) eqn:Hc; simpl;
      [rewrite Hsame by reflexivity|];
      destruct (registration s && worker_active plat); reflexivity.
  - intros ->. simpl. destruct (registration s && worker_active plat); reflexivity.
  - intros ->. reflexivity.
  - intros -> ->. destruct (num_gt0 count) eqn:Hc; [|reflexivity].
    rewrite Hsame by reflexivity. reflexivity.
Qed.

(** ** Counting deliveries *)

Lemma new_counts_one x s n :
  unreadCount s = Int n ->
  unreadCount (state_of (on_socket plat (notification_new x) s)) = Int (n + 1).
Proof.
  intros Hn. unfold on_socket.
  apply (update_then_preserved (fun s' => unreadCount s' = Int (n + 1))).
  - destruct s; simpl in *. rewrite Hn. reflexivity.
  - unfold_methods; preserve.
Qed.

Lemma markAsRead_resolved_count notificationId status s n :
  unreadCount s = Int n ->
  unreadCount (state_of (markAsRead API_BASE_URL plat notificationId (Resolved status) s))
    = Int (if 0 <? n then n - 1 else n).
Proof.
  intros Hn. destruct s as [sock dev uid reg key ls u att cap busy].
  simpl in Hn. subst u.
  unfold_methods; unfold state_of, try_catch, bind, read, tell, update, ret, throw.
  destruct sock; exec; reflexivity.
Qed.

(** X7.  The channel does not de-duplicate: [k] runs of the handler of
    [notification:new], for one same notification or not, raise the
    count by exactly [k], as long as the count is a safe integer before
    and after. *)
Theorem deliveries_are_counted (xs : list Notification) (s : Manager) (n : Z) :
  unreadCount s = Int n ->
  is_safe n = true -> is_safe (n + Z.of_nat (length xs)) = true ->
  unreadCount (deliver_all plat xs s) = Int (n + Z.of_nat (length xs)).
Proof.
  intros Hn _ _. revert s n Hn.
  induction xs as [|x xs IH]; intros s n Hn.
  - simpl. rewrite Hn. f_equal. lia.
  - change (unreadCount
              (deliver_all plat xs (state_of (on_socket plat (notification_new x) s)))
            = Int (n + Z.of_nat (length (x :: xs)))).
    rewrite (IH _ (n + 1)); [f_equal; simpl length; lia|].
    apply new_counts_one. exact Hn.
Qed.

(** X8.  Reading undoes one delivery.  For a count [n] such that [n]
    and [n + 1] are safe integers: after a run of the handler of
    [notification:new] followed by a [markAsRead] whose fetch resolves,
    the count is [n] again when [n] is not negative, and [n + 1] when it
    is, the decrement being skipped unless the count is above zero.  The
    other way round the count ends at [n] when [n] is above zero and at
    [n + 1] otherwise: from zero it ends at one. *)
Theorem read_undoes_delivery (x : Notification) (notificationId : string)
    (status : nat) (s : Manager) (n : Z) :
  unreadCount s = Int n ->
  is_safe n = true -> is_safe (n + 1) = true ->
  let delivered s := state_of (on_socket plat (notification_new x) s) in
  let marked s :=
    state_of (markAsRead API_BASE_URL plat notificationId (Resolved status) s) in
  unreadCount (marked (delivered s)) = Int (if 0 <=? n then n else n + 1) /\
  unreadCount (delivered (marked s)) = Int (if 0 <? n then n else n + 1).
Proof.
  intros Hn _ _ delivered marked. subst delivered marked. split.
  - rewrite (markAsRead_resolved_count notificationId status _ (n + 1))
      by (apply new_counts_one; exact Hn).
    destruct (Z.ltb_spec 0 (n + 1)), (Z.leb_spec 0 n); f_equal; lia.
  - rewrite (new_counts_one x _ (if 0 <? n then n - 1 else n))
      by (apply markAsRead_resolved_count; exact Hn).
    destruct (Z.ltb_spec 0 n); f_equal; lia.
Qed.

(** ** The session operations and the count *)

Lemma step_session_keeps_count (v : jsnum) (op : Op) :
  is_session_op op = true ->
  preserves (fun s => unreadCount s = v) (step op).
Proof.
  intros Hop.
  destruct op as [env uid|uid|env|ev|n http|n http|http|outcome|e c|e c|];
    try discriminate Hop; unfold_methods; preserve;
    match goal with
    | H : unreadCount ?s = _ |- _ =>
        destruct s; simpl in *; repeat case_match; simpl in *; assumption
    end.
Qed.

(** X9.  Logging out and in again does not reset the count: no sequence
    of [initialize], [disconnect], [on] and [off] calls changes
    [unreadCount], whoever the calls are made for; only the channel, the
    poll and the mark-read calls write it. *)
Theorem session_ops_keep_count (ops : list Op) (s : Manager) :
  forallb is_session_op ops = true ->
  unreadCount (run ops s) = unreadCount s.
Proof.
  intros Hops.
  apply (run_preserves API_BASE_URL plat (fun s' => unreadCount s' = unreadCount s));
    [|reflexivity].
  intros op Hin. apply step_session_keeps_count.
  rewrite forallb_forall in Hops. apply Hops. apply list_elem_of_In. exact Hin.
Qed.

(** ** The poll for missed notifications *)

Lemma filter_calls_same event arg (l : list nat) :
  List.filter (is_call_of event) (map (fun cb => ListenerCall cb event arg) l)
    = map (fun cb => ListenerCall cb event arg) l.
Proof.
  induction l as [|cb l IH]; simpl; [reflexivity|].
  rewrite String.eqb_refl, IH. reflexivity.
Qed.

Lemma filter_calls_other event other arg (l : list nat) :
  String.eqb other event = false ->
  List.filter (is_call_of event) (map (fun cb => ListenerCall cb other arg) l) = [].
Proof.
  intros Hne. induction l as [|cb l IH]; simpl; [reflexivity|].
  rewrite Hne, IH. reflexivity.
Qed.

(** X10.  The poll surfaces the first three pending notifications only,
    in order, to the listeners of "show-notification", and overwrites
    the count with the server's total; with an empty list, a refusal or
    a rejected fetch it changes nothing. *)
Theorem missed_notifications_are_capped (outcome : PendingOutcome) (s : Manager) :
  let r := fetchMissedNotifications API_BASE_URL plat outcome s in
  match outcome with
  | PendingOk (x :: rest) count =>
      List.filter (is_call_of "show-notification") (effects_of r)
        = flat_map
            (fun n => map (fun cb => ListenerCall cb "show-notification" (NotificationArg n))
                        (registered "show-notification" s))
            (take 3 (x :: rest)) /\
      state_of r = set_unreadCount count s
  | _ => state_of r = s /\ List.filter is_listener_call (effects_of r) = []
  end.
Proof.
  intros r. subst r.
  destruct s as [sock dev uid reg key ls u att cap busy].
  destruct outcome as [| |[|x1 [|x2 [|x3 rest]]] count];
    unfold_methods; unfold state_of, effects_of, try_catch, bind, read, tell, update,
      ret, throw, registered; simpl;
    try (split; reflexivity).
  all: exec; simplify_eq; (split; [|reflexivity]);
    rewrite ?app_nil_r, ?List.filter_app, ?filter_calls_same,
      ?(filter_calls_other "show-notification" "unread-count-updated") by reflexivity;
    simpl; rewrite ?app_nil_r, <- ?app_assoc; reflexivity.
Qed.

(** ** What [initialize] does and does not do *)

Lemma bind_eq {A B} (c : M A) (k : A -> M B) s a s1 e1 :
  c s = (Ret a, s1, e1) ->
  bind c k s = (let '(r, s2, e2) := k a s1 in (r, s2, e1 ++ e2)).
Proof. unfold bind. intros ->. reflexivity. Qed.

Lemma try_catch_eq {A} (c h : M A) s a s1 e1 :
  c s = (Ret a, s1, e1) -> try_catch c h s = (Ret a, s1, e1).
Proof. unfold try_catch. intros ->. reflexivity. Qed.

Lemma existsb_false_filter {X} (f : X -> bool) (l : list X) :
  existsb f l = false -> List.filter f l = [].
Proof.
  induction l as [|x l IH]; simpl; [reflexivity|].
  destruct (f x); simpl; [discriminate | exact IH].
Qed.

(** The push-key stage: it always returns; the key held afterwards is
    the old one or the one just received. *)
Lemma stage_vapid env s :
  exists key',
    try_catch (fetchVapidPublicKey API_BASE_URL env) (ret tt) s
      = (Ret tt, set_vapidPublicKey key' s,
         [HttpRequest "GET" (API_BASE_URL +:+ "/notifications/vapid-public-key") []]) /\
    (key' = vapidPublicKey s \/ vapid env = VapidKey key').
Proof.
  destruct s as [sock dev u reg key ls n att cap busy].
  unfold fetchVapidPublicKey, try_catch, bind, tell, update, throw, ret. simpl.
  destruct (vapid env) as [|status| | |k]; simpl; eexists;
    (split; [reflexivity|]); auto.
Qed.

(** The permission stage. *)
Lemma stage_permission env s :
  exists p e,
    requestPermission plat env s = (Ret p, s, e) /\
    (is_granted p = true ->
     has_Notification plat = true /\
     (permission_now env = granted \/
      (permission_now env = prompt_default /\ permission_answer env = granted))) /\
    (e = [] \/
     (e = [RequestPermission] /\ has_Notification plat = true /\
      permission_now env = prompt_default)).
Proof.
  unfold requestPermission, bind, tell, ret.
  destruct (has_Notification plat); simpl.
  - destruct (permission_now env) eqn:Hnow; simpl; do 2 eexists;
      (split; [reflexivity|]); (split; [|auto]);
      try discriminate; auto.
    destruct (permission_answer env); simpl; try discriminate; auto.
  - do 2 eexists. split; [reflexivity|]. split; [discriminate | auto].
Qed.

(** The push stage: it always returns and touches the device id only. *)
Lemma stage_push env p s :
  exists d e,
    (if is_granted p && key_truthy (vapidPublicKey s)
     then try_catch (subscribeToPushNotifications API_BASE_URL plat env) (ret tt)
     else ret tt) s = (Ret tt, set_deviceId d s, e) /\
    (existsb is_push_setup e = true ->
     is_granted p = true /\ key_truthy (vapidPublicKey s) = true) /\
    existsb is_socket_open e = false /\
    existsb is_permission_prompt e = false /\
    (existsb is_push_subscribe e = true -> existing_subscription env = false) /\
    (d <> deviceId s ->
     exists device, backend_subscribe env = SubscribeOk device /\ d = Some device).
Proof.
  destruct s as [sock dev u reg key ls n att cap busy]. simpl.
  destruct (is_granted p && key_truthy key) eqn:Hgo; simpl.
  - apply andb_true_iff in Hgo as [Hp Hk].
    unfold subscribeToPushNotifications, sendSubscriptionToBackend, try_catch, bind,
      read, tell, update, ret. simpl.
    rewrite Hk. destruct reg; simpl;
      [|exists dev, []; repeat split; try discriminate; congruence].
    destruct (existing_subscription env), (push_subscribe_ok env),
      (backend_subscribe env) as [| |device] eqn:Hb; simpl;
      eexists; eexists; (split; [reflexivity|]); simpl;
      repeat split; try discriminate; try congruence; eauto.
  - exists dev, []. repeat split; try discriminate; congruence.
Qed.

(** The socket stage. *)
Lemma stage_socket s :
  exists k e,
    connectWebSocket API_BASE_URL s = (Ret tt, set_socket k s, e) /\
    is_Some k /\
    ((socket_connected s = true /\ k = socket s /\ e = []) \/
     (socket_connected s = false /\ k = Some (mkSocket false) /\
      e = [SocketOpen (replace_first API_BASE_URL "/api" "")])).
Proof.
  destruct s as [sock dev u reg key ls n att cap busy].
  unfold connectWebSocket, bind, read, tell, update, ret, socket_connected. simpl.
  destruct sock as [[[|]]|]; simpl; do 2 eexists;
    (split; [reflexivity|]); (split; [eauto|]); auto.
Qed.

(** A call that gets past the guards and registers the worker, stage by
    stage. *)
Lemma initialize_runs (env : InitEnv) (uid : string) (s : Manager) :
  isInitializing s = false ->
  initializationAttempts s < maxInitializationAttempts s ->
  has_serviceWorker plat = true -> register_ok env = true ->
  exists key' p eC d eD k eE,
    initialize API_BASE_URL plat env uid s
      = (Ret Initialized,
         mkManager k d (Some uid) true key' (listeners s) (unreadCount s)
           (initializationAttempts s + 1) (maxInitializationAttempts s) false,
         RegisterWorker "/sw.js" "/"
         :: HttpRequest "GET" (API_BASE_URL +:+ "/notifications/vapid-public-key") []
         :: eC ++ eD ++ eE ++ [ListenWorkerMessages; ListenVisibility]) /\
    (is_granted p = true ->
     has_Notification plat = true /\
     (permission_now env = granted \/
      (permission_now env = prompt_default /\ permission_answer env = granted))) /\
    (eC = [] \/
     (eC = [RequestPermission] /\ has_Notification plat = true /\
      permission_now env = prompt_default)) /\
    (existsb is_push_setup eD = true ->
     is_granted p = true /\ key_truthy key' = true) /\
    existsb is_socket_open eD = false /\
    existsb is_permission_prompt eD = false /\
    (existsb is_push_subscribe eD = true -> existing_subscription env = false) /\
    (d <> deviceId s ->
     exists device, backend_subscribe env = SubscribeOk device /\ d = Some device) /\
    is_Some k /\
    ((socket_connected s = true /\ k = socket s /\ eE = []) \/
     (socket_connected s = false /\ k = Some (mkSocket false) /\
      eE = [SocketOpen (replace_first API_BASE_URL "/api" "")])).
Proof.
  intros Hbusy Hcap Hsw Hreg.
  destruct s as [sock dev u reg key ls n att cap busy].
  simpl in Hbusy, Hcap. subst busy. apply Z.leb_gt in Hcap.
  set (s1 := mkManager sock dev (Some uid) reg key ls n (att + 1) cap true).
  assert (Henter : initialize_enter uid
                     (mkManager sock dev u reg key ls n att cap false)
                   = (Ret None, s1, [])).
  { unfold initialize_enter, bind, read, update, ret. simpl. rewrite Hcap. reflexivity. }
  assert (HA : registerServiceWorker plat env s1
               = (Ret tt, set_registration true s1, [RegisterWorker "/sw.js" "/"])).
  { unfold registerServiceWorker, bind, tell, update. rewrite Hsw, Hreg. reflexivity. }
  destruct (stage_vapid env (set_registration true s1)) as (key' & HB & _).
  set (sB := set_vapidPublicKey key' (set_registration true s1)) in *.
  destruct (stage_permission env sB) as (p & eC & HC & Hp & HeC).
  destruct (stage_push env p sB) as (d & eD & HD & Hsetup & Hopen & Hprompt & Hsub & Hdev).
  destruct (stage_socket (set_deviceId d sB)) as (k & eE & HE & Hk & Hsock).
  exists key', p, eC, d, eD, k, eE.
  split;
    [|subst sB s1; simpl in *;
      split; [exact Hp|]; split; [exact HeC|]; split; [exact Hsetup|];
      split; [exact Hopen|]; split; [exact Hprompt|]; split; [exact Hsub|];
      split; [exact Hdev|]; split; [exact Hk | exact Hsock]].
  - unfold initialize. rewrite (bind_eq _ _ _ _ _ _ Henter). cbv beta iota.
    unfold initialize_body.
    erewrite try_catch_eq; [reflexivity|].
    rewrite (bind_eq _ _ _ _ _ _ HA). cbv beta.
    rewrite (bind_eq _ _ _ _ _ _ HB). cbv beta. fold sB.
    rewrite (bind_eq _ _ _ _ _ _ HC). cbv beta.
    rewrite (bind_eq _ _ _ _ _ _ (eq_refl : read vapidPublicKey sB = (Ret _, sB, []))).
    cbv beta.
    rewrite (bind_eq _ _ _ _ _ _ HD). cbv beta.
    rewrite (bind_eq _ _ _ _ _ _ HE). cbv beta.
    unfold setupServiceWorkerListener, setupVisibilityChangeListener, when.
    rewrite Hsw. cbn. rewrite <- ?app_assoc. reflexivity.
Qed.

(** A call that gets past the guards and cannot register the worker. *)
Lemma initialize_fails (env : InitEnv) (uid : string) (s : Manager) :
  isInitializing s = false ->
  initializationAttempts s < maxInitializationAttempts s ->
  has_serviceWorker plat = false \/ register_ok env = false ->
  exists e,
    initialize API_BASE_URL plat env uid s
      = (Ret Failed,
         mkManager (socket s) (deviceId s) (Some uid) (registration s)
           (vapidPublicKey s) (listeners s) (unreadCount s)
           (initializationAttempts s + 1) (maxInitializationAttempts s) false,
         e) /\
    existsb is_http e = false /\ existsb is_socket_open e = false /\
    existsb is_push_setup e = false /\ existsb is_permission_prompt e = false /\
    existsb is_push_subscribe e = false.
Proof.
  intros Hbusy Hcap Hno.
  destruct s as [sock dev u reg key ls n att cap busy].
  simpl in Hbusy, Hcap. subst busy. apply Z.leb_gt in Hcap.
  set (s1 := mkManager sock dev (Some uid) reg key ls n (att + 1) cap true).
  assert (Henter : initialize_enter uid
                     (mkManager sock dev u reg key ls n att cap false)
                   = (Ret None, s1, [])).
  { unfold initialize_enter, bind, read, update, ret. simpl. rewrite Hcap. reflexivity. }
  assert (HA : exists e, registerServiceWorker plat env s1 = (Throw, s1, e) /\
                         (e = [] \/ e = [RegisterWorker "/sw.js" "/"])).
  { unfold registerServiceWorker, bind, tell, update, throw.
    destruct (has_serviceWorker plat); simpl; [|eauto].
    destruct Hno as [Hno|Hno]; [discriminate | rewrite Hno]. eauto. }
  destruct HA as (e & HA & He). exists e. split.
  - unfold initialize. rewrite (bind_eq _ _ _ _ _ _ Henter). cbv beta iota.
    unfold initialize_body, try_catch at 1, bind at 1. rewrite HA.
    cbn. rewrite app_nil_r. reflexivity.
  - destruct He as [-> | ->]; repeat split.
Qed.

Ltac rewrite_run H :=
  rewrite H; unfold result_of, state_of, effects_of; simpl fst; simpl snd.

(** X11.  A call of [initialize] that gets past the guards fails exactly
    when the worker cannot be registered (no service-worker support, or
    a rejected registration); it then makes no HTTP request and leaves
    the socket alone.  In every other case, whatever the push key, the
    permission and the subscription do, it ends in the try block with a
    socket in place. *)
Theorem initialize_fails_only_without_worker (env : InitEnv) (uid : string) (s : Manager) :
  isInitializing s = false ->
  initializationAttempts s < maxInitializationAttempts s ->
  let r := initialize API_BASE_URL plat env uid s in
  (result_of r = Ret Failed <->
   has_serviceWorker plat = false \/ register_ok env = false) /\
  (result_of r = Ret Failed ->
   socket (state_of r) = socket s /\
   existsb is_http (effects_of r) = false /\
   existsb is_socket_open (effects_of r) = false) /\
  (result_of r = Ret Initialized <->
   has_serviceWorker plat = true /\ register_ok env = true) /\
  (result_of r = Ret Initialized -> is_Some (socket (state_of r))).
Proof.
  intros Hbusy Hcap r. subst r.
  destruct (has_serviceWorker plat) eqn:Hsw; [destruct (register_ok env) eqn:Hreg|].
  2: destruct (initialize_fails env uid s Hbusy Hcap (or_intror Hreg))
       as (e & Hrun & Hhttp & Hopen & Hsetup & Hprompt & Hsub).
  3: destruct (initialize_fails env uid s Hbusy Hcap (or_introl Hsw))
       as (e & Hrun & Hhttp & Hopen & Hsetup & Hprompt & Hsub).
  1: destruct (initialize_runs env uid s Hbusy Hcap Hsw Hreg)
       as (key' & p & eC & d & eD & k & eE & Hrun & Hp & HeC & Hsetup & Hopen
           & Hprompt & Hsub & Hdev & Hk & Hsock).
  all: rewrite_run Hrun.
  - split; [split; [discriminate | intros [?|?]; discriminate]|].
    split; [discriminate|]. split; [split; auto|]. intros _. exact Hk.
  - split; [split; auto|]. split; [auto|].
    split; [split; [discriminate | intros [_ ?]; discriminate]|]. discriminate.
  - split; [split; auto|]. split; [auto|].
    split; [split; [discriminate | intros [? _]; discriminate]|]. discriminate.
Qed.

(** X12.  [initialize] sets up push only with the user's consent and a
    key: a subscription call is made only if notifications are
    supported, the permission is granted (already, or in answer to the
    prompt) and the manager holds a non-empty key afterwards.  The user
    is prompted only when no decision is on record, a new subscription
    is created only when none exists, and the device id changes only to
    the one the backend returned. *)
Theorem push_setup_needs_consent_and_key (env : InitEnv) (uid : string) (s : Manager) :
  isInitializing s = false ->
  initializationAttempts s < maxInitializationAttempts s ->
  let r := initialize API_BASE_URL plat env uid s in
  (existsb is_push_setup (effects_of r) = true ->
   has_Notification plat = true /\
   (permission_now env = granted \/
    (permission_now env = prompt_default /\ permission_answer env = granted)) /\
   key_truthy (vapidPublicKey (state_of r)) = true) /\
  (existsb is_permission_prompt (effects_of r) = true ->
   has_Notification plat = true /\ permission_now env = prompt_default) /\
  (existsb is_push_subscribe (effects_of r) = true ->
   existing_subscription env = false) /\
  (deviceId (state_of r) <> deviceId s ->
   exists d, backend_subscribe env = SubscribeOk d /\ deviceId (state_of r) = Some d).
Proof.
  intros Hbusy Hcap r. subst r.
  destruct (has_serviceWorker plat) eqn:Hsw; [destruct (register_ok env) eqn:Hreg|].
  2: destruct (initialize_fails env uid s Hbusy Hcap (or_intror Hreg))
       as (e & Hrun & Hhttp & Hopen & Hsetup & Hprompt & Hsub).
  3: destruct (initialize_fails env uid s Hbusy Hcap (or_introl Hsw))
       as (e & Hrun & Hhttp & Hopen & Hsetup & Hprompt & Hsub).
  1: destruct (initialize_runs env uid s Hbusy Hcap Hsw Hreg)
       as (key' & p & eC & d & eD & k & eE & Hrun & Hp & HeC & Hsetup & Hopen
           & Hprompt & Hsub & Hdev & Hk & Hsock).
  all: rewrite_run Hrun.
  - simpl. rewrite !existsb_app.
    assert (HC1 : existsb is_push_setup eC = false)
      by (destruct HeC as [->|(-> & _)]; reflexivity).
    assert (HC2 : existsb is_push_subscribe eC = false)
      by (destruct HeC as [->|(-> & _)]; reflexivity).
    assert (HE1 : existsb is_push_setup eE = false /\
                  existsb is_permission_prompt eE = false /\
                  existsb is_push_subscribe eE = false)
      by (destruct Hsock as [(_ & _ & ->)|(_ & _ & ->)]; repeat split).
    destruct HE1 as (HE1 & HE2 & HE3).
    rewrite HC1, HC2, HE1, HE2, HE3, Hprompt. simpl. rewrite !orb_false_r.
    split; [|split; [|split]].
    + intros H. destruct (Hsetup H) as [Hg Hkey]. destruct (Hp Hg) as [Hn Hperm].
      repeat split; assumption.
    + intros H. destruct HeC as [->|(-> & Hn & Hnow)]; [discriminate|].
      split; assumption.
    + exact Hsub.
    + exact Hdev.
  - rewrite Hsetup, Hprompt, Hsub.
    repeat split; try discriminate. intros H. exfalso. apply H. reflexivity.
  - rewrite Hsetup, Hprompt, Hsub.
    repeat split; try discriminate. intros H. exfalso. apply H. reflexivity.
Qed.

(** X13.  [initialize] never opens a second socket next to a connected
    one: with a connected socket it keeps the handle and opens nothing.
    Otherwise a successful call opens exactly one socket and holds it,
    not yet connected, even when a handle that had not connected yet was
    there before. *)
Theorem initialize_reuses_connected_socket (env : InitEnv) (uid : string) (s : Manager) :
  isInitializing s = false ->
  initializationAttempts s < maxInitializationAttempts s ->
  let r := initialize API_BASE_URL plat env uid s in
  (socket_connected s = true ->
   socket (state_of r) = socket s /\
   existsb is_socket_open (effects_of r) = false) /\
  (socket_connected s = false -> result_of r = Ret Initialized ->
   socket (state_of r) = Some (mkSocket false) /\
   length (List.filter is_socket_open (effects_of r)) = 1%nat).
Proof.
  intros Hbusy Hcap r. subst r.
  destruct (has_serviceWorker plat) eqn:Hsw; [destruct (register_ok env) eqn:Hreg|].
  2: destruct (initialize_fails env uid s Hbusy Hcap (or_intror Hreg))
       as (e & Hrun & Hhttp & Hopen & Hsetup & Hprompt & Hsub).
  3: destruct (initialize_fails env uid s Hbusy Hcap (or_introl Hsw))
       as (e & Hrun & Hhttp & Hopen & Hsetup & Hprompt & Hsub).
  1: destruct (initialize_runs env uid s Hbusy Hcap Hsw Hreg)
       as (key' & p & eC & d & eD & k & eE & Hrun & Hp & HeC & Hsetup & Hopen
           & Hprompt & Hsub & Hdev & Hk & Hsock).
  all: rewrite_run Hrun.
  - assert (HC1 : existsb is_socket_open eC = false)
      by (destruct HeC as [->|(-> & _)]; reflexivity).
    simpl. rewrite !existsb_app, !List.filter_app, !length_app.
    rewrite HC1, Hopen, !existsb_false_filter by assumption. simpl.
    destruct Hsock as [(Hc & -> & ->)|(Hc & -> & ->)]; split; intros; try congruence;
      split; reflexivity.
  - split; [intros _; split; [reflexivity | exact Hopen] | discriminate].
  - split; [intros _; split; [reflexivity | exact Hopen] | discriminate].
Qed.

(** X14.  When the channel connects after a successful [initialize], the
    handshake carries the user that call was made for, the device id the
    manager holds and the detected device type. *)
Theorem connect_authenticates_user (env : InitEnv) (uid : string) (s : Manager) :
  isInitializing s = false ->
  initializationAttempts s < maxInitializationAttempts s ->
  let r := initialize API_BASE_URL plat env uid s in
  result_of r = Ret Initialized ->
  effects_of (step (SocketDelivers connect) (state_of r))
    = [SocketEmit "authenticate"
         [("userId", Some uid); ("deviceId", deviceId (state_of r));
          ("deviceType", Some (device_type_name (detectDeviceType plat)))]].
Proof.
  intros Hbusy Hcap r. subst r.
  destruct (has_serviceWorker plat) eqn:Hsw; [destruct (register_ok env) eqn:Hreg|].
  2: destruct (initialize_fails env uid s Hbusy Hcap (or_intror Hreg))
       as (e & Hrun & Hhttp & Hopen & Hsetup & Hprompt & Hsub).
  3: destruct (initialize_fails env uid s Hbusy Hcap (or_introl Hsw))
       as (e & Hrun & Hhttp & Hopen & Hsetup & Hprompt & Hsub).
  1: destruct (initialize_runs env uid s Hbusy Hcap Hsw Hreg)
       as (key' & p & eC & d & eD & k & eE & Hrun & Hp & HeC & Hsetup & Hopen
           & Hprompt & Hsub & Hdev & Hk & Hsock).
  all: rewrite_run Hrun.
  - intros _. destruct Hk as [k0 ->]. reflexivity.
  - discriminate.
  - discriminate.
Qed.

End More.

(** ** The device description *)

Lemma prefix_toLowerCase (p s : string) :
  String.prefix p s = true ->
  String.prefix (toLowerCase p) (toLowerCase s) = true.
Proof.
  revert p. induction s as [|b s IH]; intros [|a p]; simpl; try reflexivity;
    try discriminate.
  destruct (ascii_dec a b) as [->|]; [|discriminate].
  intros H. destruct (ascii_dec (lower_ascii b) (lower_ascii b)); [|congruence].
  apply IH. exact H.
Qed.

Lemma includes_toLowerCase (s sub : string) :
  includes s sub = true -> includes (toLowerCase s) (toLowerCase sub) = true.
Proof.
  induction s as [|c s IH]; simpl; intros H; apply orb_true_iff in H;
    apply orb_true_iff; destruct H as [H|H].
  - left. exact (prefix_toLowerCase sub EmptyString H).
  - discriminate.
  - left. exact (prefix_toLowerCase sub (String c s) H).
  - right. apply IH. exact H.
Qed.

(** X15.  A user agent that mentions the iPad, in any letter case, is
    reported as [ios], unless it mentions Android too, in which case it
    is reported as [android]; it is never reported as a tablet.
    [tablet] is reported only for a user agent with the word "tablet"
    and none of android, iphone, ipad, ipod. *)
Theorem ipad_is_not_a_tablet (plat : Platform) (marker : string) :
  (toLowerCase marker = "ipad" -> includes (userAgent plat) marker = true ->
   detectDeviceType plat
     = if includes (toLowerCase (userAgent plat)) "android" then android else ios) /\
  (detectDeviceType plat = tablet ->
   let ua := toLowerCase (userAgent plat) in
   includes ua "tablet" = true /\ includes ua "android" = false /\
   includes ua "iphone" = false /\ includes ua "ipad" = false /\
   includes ua "ipod" = false).
Proof.
  unfold detectDeviceType. split.
  - intros Hm Hin. apply includes_toLowerCase in Hin. rewrite Hm in Hin.
    rewrite Hin. destruct (includes _ "android"); [reflexivity|].
    rewrite orb_true_r. reflexivity.
  - destruct (includes _ "android"); [discriminate|].
    destruct (includes _ "iphone"); [discriminate|].
    destruct (includes _ "ipad"); [discriminate|].
    destruct (includes _ "ipod"); [discriminate|]. simpl.
    destruct (includes _ "tablet"); [|discriminate]. repeat split.
Qed.

Lemma substring_0_length (n : nat) (s : string) :
  String.length (String.substring 0 n s) = Nat.min n (String.length s).
Proof.
  revert s. induction n as [|n IH]; intros [|c s]; simpl; try reflexivity.
  rewrite IH. reflexivity.
Qed.

Lemma substring_0_prefix (n : nat) (s : string) :
  String.prefix (String.substring 0 n s) s = true.
Proof.
  revert s. induction n as [|n IH]; intros [|c s]; simpl; try reflexivity.
  destruct (ascii_dec c c); [apply IH | congruence].
Qed.

Lemma substring_0_all (n : nat) (s : string) :
  (String.length s <= n)%nat -> String.substring 0 n s = s.
Proof.
  revert s. induction n as [|n IH]; intros [|c s]; simpl; try reflexivity.
  - lia.
  - intros H. rewrite IH by lia. reflexivity.
Qed.

(** X16.  The device name sent to the backend is the start of the user
    agent, cut at 50 characters: never longer, and the whole user agent
    when that is short enough. *)
Theorem device_name_is_capped (plat : Platform) :
  String.length (getDeviceName plat) = Nat.min 50 (String.length (userAgent plat)) /\
  String.prefix (getDeviceName plat) (userAgent plat) = true /\
  ((String.length (userAgent plat) <= 50)%nat -> getDeviceName plat = userAgent plat).
Proof.
  unfold getDeviceName. split; [apply substring_0_length|].
  split; [apply substring_0_prefix | apply substring_0_all].
Qed.

(** ** The push key, before decoding *)

Lemma length_map_chars f s : String.length (map_chars f s) = String.length s.
Proof. induction s as [|c s IH]; simpl; [reflexivity | rewrite IH; reflexivity]. Qed.

Lemma length_app_string (a b : string) :
  String.length (a +:+ b) = (String.length a + String.length b)%nat.
Proof. induction a as [|c a IH]; simpl; [reflexivity | rewrite IH; reflexivity]. Qed.

Lemma app_empty_string (s : string) : s +:+ "" = s.
Proof.
  induction s as [|c s IH]; [reflexivity|].
  change (String c (s +:+ "") = String c s). rewrite IH. reflexivity.
Qed.

Lemma length_repeat_char c n : String.length (repeat_char c n) = n.
Proof. induction n as [|n IH]; simpl; [reflexivity | rewrite IH; reflexivity]. Qed.

Lemma padded_mod_4 (n : nat) : ((n + padding_length n) mod 4 = 0)%nat.
Proof.
  unfold padding_length.
  pose proof (Nat.mod_upper_bound n 4 ltac:(lia)) as Hr.
  pose proof (Nat.div_mod_eq n 4) as Hn.
  set (q := (n / 4)%nat) in *. set (r := (n mod 4)%nat) in *.
  clearbody q r. subst n.
  destruct r as [|[|[|[|r]]]]; [| | | |lia].
  - change ((4 - 0) mod 4)%nat with 0%nat.
    replace (4 * q + 0 + 0)%nat with (q * 4)%nat by lia. apply Nat.Div0.mod_mul.
  - change ((4 - 1) mod 4)%nat with 3%nat.
    replace (4 * q + 1 + 3)%nat with ((q + 1) * 4)%nat by lia. apply Nat.Div0.mod_mul.
  - change ((4 - 2) mod 4)%nat with 2%nat.
    replace (4 * q + 2 + 2)%nat with ((q + 1) * 4)%nat by lia. apply Nat.Div0.mod_mul.
  - change ((4 - 3) mod 4)%nat with 1%nat.
    replace (4 * q + 3 + 1)%nat with ((q + 1) * 4)%nat by lia. apply Nat.Div0.mod_mul.
Qed.

Lemma has_char_map_standard (c : ascii) (s : string) :
  c = "-"%char \/ c = "_"%char -> has_char c (map_chars standard_char s) = false.
Proof.
  intros Hc. induction s as [|a s IH]; simpl; [reflexivity|].
  rewrite IH, orb_false_r. unfold standard_char.
  destruct (Ascii.eqb_spec a "-") as [->|H1];
    [destruct Hc as [->| ->]; reflexivity|].
  destruct (Ascii.eqb_spec a "_") as [->|H2];
    [destruct Hc as [->| ->]; reflexivity|].
  apply Ascii.eqb_neq. destruct Hc as [->| ->]; assumption.
Qed.

Lemma map_standard_id (s : string) :
  has_char "-" s = false -> has_char "_" s = false -> map_chars standard_char s = s.
Proof.
  induction s as [|a s IH]; simpl; [reflexivity|]. intros H1 H2.
  apply orb_false_iff in H1 as [H1 H1']. apply orb_false_iff in H2 as [H2 H2'].
  rewrite IH by assumption. unfold standard_char. rewrite H1, H2. reflexivity.
Qed.

(** X17.  Whatever key the server sends, the text that
    [urlBase64ToUint8Array] hands to the decoder has a length that is a
    multiple of four and holds no "-" and no "_"; a key of standard
    base64 whose length is a multiple of four is handed over as it
    is. *)
Theorem push_key_is_padded (base64String : string) :
  (String.length (urlBase64_padded base64String) mod 4 = 0)%nat /\
  has_char "-" (urlBase64_padded base64String) = false /\
  has_char "_" (urlBase64_padded base64String) = false /\
  ((String.length base64String mod 4 = 0)%nat ->
   has_char "-" base64String = false -> has_char "_" base64String = false ->
   urlBase64_padded base64String = base64String).
Proof.
  unfold urlBase64_padded. split.
  - rewrite length_map_chars, length_app_string, length_repeat_char.
    apply padded_mod_4.
  - split; [apply has_char_map_standard; left; reflexivity|].
    split; [apply has_char_map_standard; right; reflexivity|].
    intros Hm H1 H2. unfold padding_length. rewrite Hm. simpl.
    rewrite app_empty_string. apply map_standard_id; assumption.
Qed.

(** ** Examples *)

(** X1, for a [markAsRead] whose fetch rejects. *)
Lemma no_method_call_throws_witness :
  is_method_call (CallMarkAsRead "n1" Rejected) = true /\
  result_of (step sample_base sample_browser (CallMarkAsRead "n1" Rejected) sample_session)
    = Ret tt.
Proof.
  split; [reflexivity|].
  apply (no_method_call_throws sample_base sample_browser
           (CallMarkAsRead "n1" Rejected) sample_session).
  reflexivity.
Defined.

(** X2, after a disconnect of the sample session: what reached the
    listener before does not reach it any more. *)
Lemma disconnect_silences_listeners_witness :
  let hs :=
    [Operation (CallMarkAllAsRead (Resolved 200));
     ReplacedSocketDelivers (notification_new sample_notification)] in
  forallb (fun h => negb (registers h)) hs = true /\
  existsb is_listener_call
    (effects_along sample_base sample_browser hs sample_session) = true /\
  existsb is_listener_call
    (effects_along sample_base sample_browser hs
       (state_of (step sample_base sample_browser CallDisconnect sample_session))) = false.
Proof.
  intros hs. split; [reflexivity|]. split; [reflexivity|].
  apply (disconnect_silences_listeners sample_base sample_browser hs sample_session).
  reflexivity.
Defined.

(** X3, where a second listener is added. *)
Lemma on_registers_last_witness :
  "notification" <> "unread-count-updated" /\
  effects_of
    (emit "notification" NoArg
       (state_of (on "unread-count-updated" 2%nat sample_session)))
  = effects_of (emit "notification" NoArg sample_session).
Proof.
  assert (Hne : "notification" <> "unread-count-updated") by discriminate.
  split; [exact Hne|].
  apply (on_registers_last "unread-count-updated" 2%nat NoArg sample_session).
  exact Hne.
Defined.

(** X4, on the sample session. *)
Lemma on_then_off_witness :
  ~ In 7%nat (registered "notification" sample_session) /\
  effects_of
    (emit "unread-count-updated" NoArg
       (state_of (off "notification" 7%nat (state_of (on "notification" 7%nat sample_session)))))
  = effects_of (emit "unread-count-updated" NoArg sample_session).
Proof.
  assert (Hn : ~ In 7%nat (registered "notification" sample_session))
    by (vm_compute; intros []).
  split; [exact Hn|].
  apply (on_then_off "notification" 7%nat sample_session). exact Hn.
Defined.

(** X5, for an event nobody listens to. *)
Lemma off_unregistered_is_noop_witness :
  ~ In 7%nat (registered "notification" sample_session) /\
  off "notification" 7%nat sample_session = (Ret tt, sample_session, []).
Proof.
  assert (Hn : ~ In 7%nat (registered "notification" sample_session))
    by (vm_compute; intros []).
  split; [exact Hn|].
  apply (off_unregistered_is_noop "notification" 7%nat sample_session). exact Hn.
Defined.

(** X6, for a count of 3. *)
Lemma worker_badge_agrees_witness :
  has_setAppBadge sample_browser = true /\
  In (WorkerLifecycle.UPDATE_BADGE (Int 3))
     (omap WorkerLifecycle.as_message
        (effects_of (updateBadge sample_browser (Int 3) sample_session))) /\
  WorkerLifecycle.on_message true true (WorkerLifecycle.UPDATE_BADGE (Int 3))
    = Some [WorkerLifecycle.CallSetAppBadge (Int 3)].
Proof.
  assert (Hin : In (WorkerLifecycle.UPDATE_BADGE (Int 3))
                  (omap WorkerLifecycle.as_message
                     (effects_of (updateBadge sample_browser (Int 3) sample_session))))
    by (vm_compute; left; reflexivity).
  split; [reflexivity|]. split; [exact Hin|].
  destruct (worker_badge_agrees sample_browser (Int 3) sample_session true true
              (WorkerLifecycle.UPDATE_BADGE (Int 3)) Hin) as [Hsame _].
  rewrite (Hsame eq_refl eq_refl eq_refl). reflexivity.
Defined.

(** X7, with the same notification delivered twice. *)
Lemma deliveries_are_counted_witness :
  unreadCount sample_session = Int 5 /\
  is_safe 5 = true /\ is_safe (5 + 2) = true /\
  unreadCount
    (deliver_all sample_browser [sample_notification; sample_notification] sample_session)
  = Int 7.
Proof.
  split; [reflexivity|]. split; [reflexivity|]. split; [reflexivity|].
  apply (deliveries_are_counted sample_browser
           [sample_notification; sample_notification] sample_session 5
           eq_refl eq_refl eq_refl).
Defined.

(** X8, on the sample session. *)
Lemma read_undoes_delivery_witness :
  unreadCount sample_session = Int 5 /\
  is_safe 5 = true /\ is_safe (5 + 1) = true /\
  unreadCount
    (state_of
       (markAsRead sample_base sample_browser "n1" (Resolved 200)
          (state_of
             (on_socket sample_browser (notification_new sample_notification)
                sample_session)))) = Int 5.
Proof.
  split; [reflexivity|]. split; [reflexivity|]. split; [reflexivity|].
  apply (read_undoes_delivery sample_base sample_browser sample_notification "n1" 200%nat
           sample_session 5 eq_refl eq_refl eq_refl).
Defined.

(** X9: the 5 unread of the rider are still there for the admin. *)
Lemma session_ops_keep_count_witness :
  let ops := [CallDisconnect; CallInitialize env_ok "admin-1"] in
  forallb is_session_op ops = true /\
  unreadCount (run sample_base sample_browser ops sample_session) = Int 5.
Proof.
  intros ops. split; [reflexivity|].
  rewrite (session_ops_keep_count sample_base sample_browser ops sample_session eq_refl).
  reflexivity.
Defined.

(** X11, in a browser without service workers. *)
Lemma initialize_fails_only_without_worker_witness :
  isInitializing fresh = false /\
  initializationAttempts fresh < maxInitializationAttempts fresh /\
  result_of (initialize sample_base sample_old_browser env_ok "rider-7" fresh)
    = Ret Failed /\
  existsb is_http
    (effects_of (initialize sample_base sample_old_browser env_ok "rider-7" fresh))
    = false.
Proof.
  split; [reflexivity|]. split; [reflexivity|].
  destruct (initialize_fails_only_without_worker sample_base sample_old_browser
              env_ok "rider-7" fresh eq_refl eq_refl) as (Hiff & Hfail & _).
  assert (Hres : result_of (initialize sample_base sample_old_browser env_ok
                              "rider-7" fresh) = Ret Failed)
    by (apply Hiff; left; reflexivity).
  split; [exact Hres | apply (Hfail Hres)].
Defined.

(** X12, where the key request times out: no push call is made. *)
Lemma push_setup_needs_consent_and_key_witness :
  isInitializing fresh = false /\
  initializationAttempts fresh < maxInitializationAttempts fresh /\
  key_truthy
    (vapidPublicKey
       (state_of (initialize sample_base sample_browser env_no_key "rider-7" fresh)))
    = false /\
  existsb is_push_setup
    (effects_of (initialize sample_base sample_browser env_no_key "rider-7" fresh))
    <> true.
Proof.
  split; [reflexivity|]. split; [reflexivity|]. split; [reflexivity|].
  destruct (push_setup_needs_consent_and_key sample_base sample_browser
              env_no_key "rider-7" fresh eq_refl eq_refl) as (Hsetup & _).
  intros H. destruct (Hsetup H) as (_ & _ & Hkey). discriminate Hkey.
Defined.

(** X13, with the connected socket of the sample session. *)
Lemma initialize_reuses_connected_socket_witness :
  isInitializing sample_session = false /\
  initializationAttempts sample_session < maxInitializationAttempts sample_session /\
  socket_connected sample_session = true /\
  existsb is_socket_open
    (effects_of (initialize sample_base sample_browser env_ok "rider-7" sample_session))
    = false.
Proof.
  split; [reflexivity|]. split; [reflexivity|]. split; [reflexivity|].
  destruct (initialize_reuses_connected_socket sample_base sample_browser
              env_ok "rider-7" sample_session eq_refl eq_refl) as (Hkeep & _).
  apply (Hkeep eq_refl).
Defined.

(** X14, on a fresh session. *)
Lemma connect_authenticates_user_witness :
  let r := initialize sample_base sample_browser env_ok "rider-7" fresh in
  isInitializing fresh = false /\
  initializationAttempts fresh < maxInitializationAttempts fresh /\
  result_of r = Ret Initialized /\
  effects_of (step sample_base sample_browser (SocketDelivers connect) (state_of r))
    = [SocketEmit "authenticate"
         [("userId", Some "rider-7"); ("deviceId", Some "device-1");
          ("deviceType", Some "desktop")]].
Proof.
  intros r. subst r.
  split; [reflexivity|]. split; [reflexivity|]. split; [reflexivity|].
  rewrite (connect_authenticates_user sample_base sample_browser env_ok "rider-7"
             fresh eq_refl eq_refl eq_refl).
  reflexivity.
Defined.

(** X15, for the user agent of an iPad. *)
Lemma ipad_is_not_a_tablet_witness :
  toLowerCase "iPad" = "ipad" /\
  includes (userAgent sample_ipad) "iPad" = true /\
  detectDeviceType sample_ipad = ios.
Proof.
  split; [reflexivity|]. split; [reflexivity|].
  apply (ipad_is_not_a_tablet sample_ipad "iPad"); reflexivity.
Defined.

(** X16, for a short user agent. *)
Lemma device_name_is_capped_witness :
  (String.length (userAgent sample_browser) <= 50)%nat /\
  getDeviceName sample_browser = userAgent sample_browser.
Proof.
  assert (H : (String.length (userAgent sample_browser) <= 50)%nat)
    by (vm_compute; lia).
  split; [exact H|].
  apply (device_name_is_capped sample_browser). exact H.
Defined.

(** X17, for a key of standard base64. *)
Lemma push_key_is_padded_witness :
  (String.length "BPk3yQ+/" mod 4 = 0)%nat /\
  has_char "-" "BPk3yQ+/" = false /\ has_char "_" "BPk3yQ+/" = false /\
  urlBase64_padded "BPk3yQ+/" = "BPk3yQ+/".
Proof.
  split; [reflexivity|]. split; [reflexivity|]. split; [reflexivity|].
  apply (push_key_is_padded "BPk3yQ+/"); reflexivity.
Defined.

End ManagerMoreProofs.

(** * More properties of the background worker *)

Module WorkerMoreProofs.
Import Js ServiceWorker WorkerLifecycle WorkerProofs.

#[local] Opaque CACHE_NAME.

(** ** Clicks on what the worker displays *)

Lemma or_else_object_not_nullish (v : jsval) (fields : list (string * jsval)) :
  nullish (or_else v (JObj fields)) = false.
Proof.
  unfold or_else. destruct v as [| |[|]|z|s|items|fs]; simpl; try reflexivity.
  - destruct (z =? 0); reflexivity.
  - destruct (String.eqb s ""); reflexivity.
Qed.

(** X18.  A click on a notification that the push listener displayed
    never fails on its data: whatever the payload was, the data given to
    the notification is an object, so every click other than "dismiss"
    gets as far as looking for a window. *)
Theorem displayed_notifications_can_be_clicked
    (origin : string) (has_openWindow : bool) (matched : option (list Client))
    (d : PushData) (o : Options) (act : string) :
  push_options d = Some o ->
  act <> "dismiss" ->
  nullish (opt_data o) = false /\
  exists rest,
    on_notificationclick origin has_openWindow matched
      {| action := act; notification_data := opt_data o |}
    = CloseNotification :: MatchAllWindows :: rest.
Proof.
  intros Ho Hact.
  assert (Hdata : nullish (opt_data o) = false).
  { unfold push_options in Ho. destruct (nullish (notificationData d)) eqn:Hn.
    - destruct (notificationData d); try discriminate Hn; discriminate Ho.
    - rewrite (options_of_not_nullish _ Hn) in Ho. inversion Ho; subst; clear Ho.
      simpl. apply or_else_object_not_nullish. }
  split; [exact Hdata|].
  unfold on_notificationclick. simpl.
  apply String.eqb_neq in Hact. rewrite Hact.
  rewrite (get_not_nullish _ "targetUrl" Hdata).
  rewrite (get_not_nullish _ "notificationId" Hdata). eexists. reflexivity.
Qed.

(** ** What a push displays *)

(** X19.  A push displays exactly one notification, for every payload
    but one that parses to [null], which displays nothing.  The title
    is the default one only when there is no payload or it is not JSON;
    a JSON payload gives its own [title], [undefined] when it has none.
    The badge is set only when the notification was shown, the platform
    has the badge call and the payload carries a [badgeCount]. *)
Theorem push_displays_one_notification (has_setAppBadge shown : bool) (d : PushData) :
  let effects := on_push has_setAppBadge shown d in
  (nullish (notificationData d) = true -> effects = []) /\
  (nullish (notificationData d) = false ->
   exists title o rest,
     effects = ShowNotification title o :: rest /\
     push_options d = Some o /\
     existsb is_show rest = false /\
     match d with
     | Parsed v => get v "title" = Some title
     | NoData | Unparseable _ => title = default_title
     end) /\
  (existsb is_set_badge effects = true ->
   shown = true /\ has_setAppBadge = true /\ payload_lacks d "badgeCount" = false).
Proof.
  intros effects. subst effects. unfold on_push, push_options.
  destruct (nullish (notificationData d)) eqn:Hn.
  - assert (Hnone : options_of (notificationData d) = None)
      by (destruct (notificationData d); try discriminate Hn; reflexivity).
    rewrite Hnone. split; [reflexivity|]. split; [discriminate|]. discriminate.
  - rewrite (options_of_not_nullish _ Hn).
    rewrite (get_not_nullish _ "title" Hn), (get_not_nullish _ "badgeCount" Hn).
    split; [discriminate|]. split.
    + intros _. do 3 eexists. split; [reflexivity|]. split; [reflexivity|].
      split.
      * destruct shown; [|reflexivity].
        destruct (default JUndefined (get (notificationData d) "badgeCount"));
          destruct has_setAppBadge; reflexivity.
      * destruct d as [| |v]; simpl; try reflexivity.
        apply (get_not_nullish v "title" Hn).
    + simpl. destruct shown; [|discriminate].
      destruct has_setAppBadge;
        [|destruct (default JUndefined _); discriminate].
      destruct d as [| |v]; simpl in *; try discriminate.
      unfold absent. rewrite (get_not_nullish v "badgeCount" Hn).
      destruct (default JUndefined (get v "badgeCount")); simpl;
        try discriminate; intros _; repeat split.
Qed.

(** ** Fetch interception *)

(** X20.  An API request is never answered from the cache: for a
    same-origin URL with the API path the worker makes one network fetch
    and no cache lookup, even when the cache holds the URL, and it
    always responds.  For any request at all it makes at most one
    network fetch. *)
Theorem api_requests_bypass_the_cache
    (origin : string) (network : string -> NetResult)
    (storage : list (string * gmap string Response)) (url : string) :
  (startsWith url origin = true -> includes url "/api/" = true ->
   snd (on_fetch origin network storage url) = [NetFetch url] /\
   existsb is_cache_lookup (snd (on_fetch origin network storage url)) = false /\
   exists r, fst (on_fetch origin network storage url) = RespondWith (Some r)) /\
  (length (List.filter is_net_fetch (snd (on_fetch origin network storage url))) <= 1)%nat.
Proof.
  unfold on_fetch. split.
  - intros -> ->. simpl. destruct (network url); simpl; repeat split; eauto.
  - destruct (startsWith url origin); simpl; [|lia].
    destruct (includes url "/api/"); [destruct (network url); simpl; lia|].
    destruct (caches_match storage url); [simpl; lia|].
    destruct (network url); simpl; lia.
Qed.

(** ** Install and activate *)

Lemma prefix_app (a b : string) : String.prefix a (a +:+ b) = true.
Proof.
  induction a as [|c a IH]; [destruct b; reflexivity|].
  change (String.prefix (String c a) (String c (a +:+ b)) = true). simpl.
  destruct (ascii_dec c c); [exact IH | congruence].
Qed.

Lemma caches_match_in_hit (st : list (string * gmap string Response))
    (name : string) (cache : gmap string Response) (url : string) :
  In (name, cache) st -> is_Some (cache !! url) ->
  is_Some (caches_match_in st url).
Proof.
  induction st as [|[n c] st IH]; simpl; [contradiction|].
  intros [Heq|Hin] Hhit.
  - inversion Heq; subst. destruct Hhit as [r ->]. eauto.
  - destruct (c !! url); [eauto | apply IH; assumption].
Qed.

Lemma caches_match_in_source (st : list (string * gmap string Response))
    (url : string) (r : Response) :
  caches_match_in st url = Some r ->
  exists name cache, In (name, cache) st /\ cache !! url = Some r.
Proof.
  induction st as [|[n c] st IH]; simpl; [discriminate|].
  destruct (c !! url) as [r'|] eqn:Hc.
  - intros H. inversion H; subst. exists n, c. split; [left; reflexivity | exact Hc].
  - intros H. destruct (IH H) as (name & cache & Hin & Hl).
    exists name, cache. split; [right; exact Hin | exact Hl].
Qed.

Lemma open_cache_in (name : string) (st : list (string * gmap string Response)) :
  exists cache, In (name, cache) (open_cache name st).
Proof.
  unfold open_cache, has_cache. destruct (existsb _ st) eqn:He.
  - apply existsb_exists in He as ([n c] & Hin & Heq). simpl in Heq.
    apply String.eqb_eq in Heq. subst. eauto.
  - exists ∅. apply in_or_app. right. left. reflexivity.
Qed.

Lemma update_cache_in (name : string) f (st : list (string * gmap string Response))
    (cache : gmap string Response) :
  In (name, cache) st -> In (name, f cache) (update_cache name f st).
Proof.
  intros Hin. unfold update_cache.
  apply in_map_iff. exists (name, cache). simpl.
  rewrite String.eqb_refl. split; [reflexivity | exact Hin].
Qed.

Lemma fetch_all_urls (network : string -> NetResult) (urls : list string)
    (entries : list (string * Response)) :
  fetch_all network urls = Some entries -> map fst entries = urls.
Proof.
  revert entries. induction urls as [|u urls IH]; simpl; intros entries H.
  - inversion H; reflexivity.
  - destruct (network u) as [r|]; [|discriminate].
    destruct (response_ok r); [|discriminate].
    destruct (fetch_all network urls) as [rest|]; [|discriminate].
    inversion H; subst. simpl. rewrite (IH rest eq_refl). reflexivity.
Qed.

Lemma put_all_hit (entries : list (string * Response))
    (cache : gmap string Response) (url : string) :
  In url (map fst entries) -> is_Some (put_all entries cache !! url).
Proof.
  induction entries as [|[u r] entries IH]; simpl; [contradiction|].
  intros Hin. unfold put_all. simpl. fold (put_all entries cache).
  destruct (decide (u = url)) as [->|Hne].
  - rewrite lookup_insert_eq. eauto.
  - rewrite lookup_insert_ne by exact Hne.
    apply IH. destruct Hin as [Heq|Hin]; [contradiction | exact Hin].
Qed.

Lemma installed_hit (origin : string) (network : string -> NetResult)
    (st st' : list (string * gmap string Response)) (effects : list LifecycleEffect)
    (path : string) :
  on_install origin network st = (true, st', effects) ->
  In path ASSETS_TO_CACHE ->
  is_Some (caches_match st' (origin +:+ path)).
Proof.
  unfold on_install. intros Hinst Hpath.
  destruct (fetch_all network (asset_urls origin)) as [entries|] eqn:Hall;
    [|discriminate].
  inversion Hinst; subst; clear Hinst.
  destruct (open_cache_in CACHE_NAME st) as [cache Hin].
  apply (caches_match_in_hit _ CACHE_NAME (put_all entries cache)).
  - apply update_cache_in. exact Hin.
  - apply put_all_hit. rewrite (fetch_all_urls _ _ _ Hall).
    unfold asset_urls. apply in_map_iff. exists path. split; [reflexivity | exact Hpath].
Qed.

(** X21.  Once the install has succeeded the application works offline:
    whatever the network does afterwards, each pre-cached asset is
    answered from the cache without a network fetch, and every other
    same-origin request outside the API path whose fetch fails is still
    answered, with the cached page or the cached application shell,
    never with nothing. *)
Theorem installed_assets_are_served_offline
    (origin : string) (network later : string -> NetResult)
    (st st' : list (string * gmap string Response)) (effects : list LifecycleEffect) :
  on_install origin network st = (true, st', effects) ->
  (forall path, In path ASSETS_TO_CACHE ->
     includes (origin +:+ path) "/api/" = false ->
     exists r, on_fetch origin later st' (origin +:+ path)
               = (RespondWith (Some r), [CacheLookup (origin +:+ path)])) /\
  (forall url, startsWith url origin = true -> includes url "/api/" = false ->
     later url = NetError ->
     exists r, fst (on_fetch origin later st' url) = RespondWith (Some r)).
Proof.
  intros Hinst. split.
  - intros path Hpath Hapi.
    destruct (installed_hit _ _ _ _ _ path Hinst Hpath) as [r Hr].
    exists r. unfold on_fetch, startsWith.
    rewrite prefix_app, Hapi. simpl. rewrite Hr. reflexivity.
  - intros url Ho Hapi Hnet.
    destruct (installed_hit _ _ _ _ _ "/index.html" Hinst
                ltac:(right; left; reflexivity)) as [shell Hshell].
    unfold on_fetch. rewrite Ho, Hapi. simpl.
    destruct (caches_match st' url) as [r|]; [eauto|].
    rewrite Hnet. simpl. rewrite Hshell. eauto.
Qed.

(** X22.  Activation deletes every cache but the current version's and
    only those: afterwards a cached answer can only come from a cache of
    the current name that was there before, one delete is issued per
    other cache, and activating again deletes nothing. *)
Theorem activate_keeps_only_current_cache
    (st : list (string * gmap string Response)) :
  let st' := fst (on_activate st) in
  (forall url r, caches_match_in st' url = Some r ->
     exists cache, In (CACHE_NAME, cache) st /\ cache !! url = Some r) /\
  (forall cache, In (CACHE_NAME, cache) st -> In (CACHE_NAME, cache) st') /\
  (forall name, In (DeleteCache name) (snd (on_activate st)) <->
     name <> CACHE_NAME /\ exists cache, In (name, cache) st) /\
  on_activate st' = (st', [ClaimClients]).
Proof.
  intros st'. subst st'. unfold on_activate. simpl.
  split; [|split; [|split]].
  - intros url r Hhit.
    destruct (caches_match_in_source _ _ _ Hhit) as (name & cache & Hin & Hl).
    apply filter_In in Hin as [Hin Heq]. simpl in Heq.
    apply String.eqb_eq in Heq. subst. eauto.
  - intros cache Hin. apply filter_In. split; [exact Hin|].
    apply String.eqb_refl.
  - intros name. rewrite in_app_iff, in_map_iff. split.
    + intros [([n c] & Heq & Hin)|[H|[]]]; [|discriminate].
      inversion Heq; subst. apply filter_In in Hin as [Hin Hne]. simpl in Hne.
      apply negb_true_iff, String.eqb_neq in Hne. eauto.
    + intros (Hne & cache & Hin). left. exists (name, cache).
      split; [reflexivity|]. apply filter_In. split; [exact Hin|].
      simpl. apply negb_true_iff, String.eqb_neq. exact Hne.
  - f_equal.
    + induction st as [|[n c] st IH]; simpl; [reflexivity|].
      destruct (String.eqb n CACHE_NAME) eqn:Hn; simpl; [|exact IH].
      rewrite Hn. f_equal. exact IH.
    + replace (List.filter (fun c => negb (String.eqb (fst c) CACHE_NAME))
                 (List.filter (fun c => String.eqb (fst c) CACHE_NAME) st))
        with (@nil (string * gmap string Response)); [reflexivity|].
      induction st as [|[n c] st IH]; simpl; [reflexivity|].
      destruct (String.eqb n CACHE_NAME) eqn:Hn; simpl; [|exact IH].
      rewrite Hn. simpl. exact IH.
Qed.

(** ** The periodic sync *)

Lemma show_each_all (items : list PendingItem) :
  show_each true items
    = (true, map (fun n => SyncShow (item_title n) (catch_up_options n)) items).
Proof.
  induction items as [|n items IH]; simpl; [reflexivity|].
  rewrite IH. reflexivity.
Qed.

Lemma filter_shows (items : list PendingItem) :
  List.filter is_sync_show
    (map (fun n => SyncShow (item_title n) (catch_up_options n)) items)
  = map (fun n => SyncShow (item_title n) (catch_up_options n)) items.
Proof. induction items as [|n items IH]; simpl; [reflexivity | rewrite IH; reflexivity]. Qed.

(** X23.  The periodic sync shows the first three pending
    notifications and no more, in order, and sets the badge to the
    server's count after them; when notifications cannot be shown it
    stops at the first attempt and leaves the badge alone; a failed or
    empty answer shows nothing. *)
Theorem catch_up_is_capped_at_three
    (has_setAppBadge can_show : bool) (answer : PendingAnswer) :
  let effects := fetchNewNotifications has_setAppBadge can_show answer in
  (length (List.filter is_sync_show effects) <= 3)%nat /\
  (forall items count, answer = AnswerJson (Some items) count -> items <> [] ->
     can_show = true ->
     effects
       = SyncFetch "/api/notifications/pending?limit=10"
         :: map (fun n => SyncShow (item_title n) (catch_up_options n)) (take 3 items)
         ++ (if has_setAppBadge then [SyncSetAppBadge count] else [])) /\
  (forall n rest count, answer = AnswerJson (Some (n :: rest)) count ->
     can_show = false ->
     effects
       = [SyncFetch "/api/notifications/pending?limit=10";
          SyncShow (item_title n) (catch_up_options n)]) /\
  (match answer with
   | AnswerJson (Some (_ :: _)) _ => True
   | _ => effects = [SyncFetch "/api/notifications/pending?limit=10"]
   end).
Proof.
  intros effects. subst effects. unfold fetchNewNotifications.
  destruct answer as [| |[[|n1 [|n2 [|n3 rest]]]|] count]; simpl;
    try (split; [lia|]; split; [intros ? ? H; try discriminate H; inversion H; subst;
                                 intros Hne; try (exfalso; apply Hne; reflexivity)|];
         split; [intros ? ? ? H; discriminate H | reflexivity]).
  all: destruct can_show, has_setAppBadge; simpl;
    (split; [lia|]);
    (split; [intros items c H Hne Hshow; inversion H; subst; simpl;
             try discriminate Hshow; reflexivity|]);
    (split; [intros n r c H Hshow; inversion H; subst; simpl;
             try discriminate Hshow; reflexivity | exact I]).
Qed.

(** X24.  A click on a catch-up notification is routed with the
    notification's own data: any action but "dismiss" resolves to the
    pending notification's [targetUrl], or to "/" when it has none, and
    carries its id.  What is done next depends on the window list and
    on the platform.  When [matchAll] rejects, nothing more is done.
    When it resolves with no window of the app, a window is opened at
    that target if the platform has [clients.openWindow], and nothing
    is opened if it has not.  When it resolves with a window of the
    app, the first such window is focused and, if the focus resolves,
    sent that target with the notification's id. *)
Theorem catch_up_click_opens_target
    (origin : string) (has_openWindow : bool) (matched : option (list Client))
    (n : PendingItem) (act : string) :
  act <> "dismiss" ->
  let ev := {| action := act; notification_data := catch_up_data n |} in
  let target := or_else (item_targetUrl n) (JStr "/") in
  resolved_target ev = target /\
  msg_notificationId (clicked_message ev) = item_id n /\
  on_notificationclick origin has_openWindow matched ev
    = CloseNotification :: MatchAllWindows ::
      match matched with
      | None => []
      | Some clients =>
          match List.find (app_window origin) clients with
          | Some c =>
              FocusClient (client_id c) ::
              (if focus_resolves c
               then [PostMessage (client_id c)
                       {| msg_type := "NOTIFICATION_CLICKED"; msg_url := target;
                          msg_notificationId := item_id n; msg_action := act |}]
               else [])
          | None => if has_openWindow then [OpenWindow target] else []
          end
      end.
Proof.
  intros Hact ev target. subst ev target. split; [reflexivity|]. split; [reflexivity|].
  unfold on_notificationclick. simpl.
  apply String.eqb_neq in Hact. rewrite Hact. reflexivity.
Qed.

(** ** Examples *)

(** X18, for a payload with a title only. *)
Lemma displayed_notifications_can_be_clicked_witness :
  exists o,
    push_options bare_payload = Some o /\ "view" <> "dismiss" /\
    nullish (opt_data o) = false.
Proof.
  destruct (push_options bare_payload) as [o|] eqn:Ho; [|discriminate Ho].
  assert (Hact : "view" <> "dismiss") by discriminate.
  exists o. split; [reflexivity|]. split; [exact Hact|].
  apply (displayed_notifications_can_be_clicked sample_origin true None
           bare_payload o "view" Ho Hact).
Defined.

(** X19, for a payload with a title only. *)
Lemma push_displays_one_notification_witness :
  nullish (notificationData bare_payload) = false /\
  exists title o rest,
    on_push true true bare_payload = ShowNotification title o :: rest /\
    existsb is_show rest = false.
Proof.
  split; [reflexivity|].
  destruct (push_displays_one_notification true true bare_payload) as (_ & Hshow & _).
  destruct (Hshow eq_refl) as (title & o & rest & Heq & _ & Hrest & _).
  exists title, o, rest. split; [exact Heq | exact Hrest].
Defined.

(** X20, for an API URL that the cache holds. *)
Lemma api_requests_bypass_the_cache_witness :
  let url := "https://water.example/index.html?next=/api/orders" in
  startsWith url sample_origin = true /\ includes url "/api/" = true /\
  snd (on_fetch sample_origin online_network sample_storage url) = [NetFetch url].
Proof.
  intros url. split; [reflexivity|]. split; [reflexivity|].
  apply (api_requests_bypass_the_cache sample_origin online_network sample_storage url);
    reflexivity.
Defined.

(** X21, installing online and going offline. *)
Lemma installed_assets_are_served_offline_witness :
  let installed := on_install sample_origin online_network [] in
  fst (fst installed) = true /\
  In "/icon-192x192.png" ASSETS_TO_CACHE /\
  includes (sample_origin +:+ "/icon-192x192.png") "/api/" = false /\
  exists r,
    on_fetch sample_origin offline_network (snd (fst installed))
      (sample_origin +:+ "/icon-192x192.png")
    = (RespondWith (Some r), [CacheLookup (sample_origin +:+ "/icon-192x192.png")]).
Proof.
  intros installed.
  assert (Hin : In "/icon-192x192.png" ASSETS_TO_CACHE)
    by (right; right; left; reflexivity).
  split; [reflexivity|]. split; [exact Hin|]. split; [reflexivity|].
  assert (Hinst : on_install sample_origin online_network []
                  = (true, snd (fst installed), snd installed)) by reflexivity.
  destruct (installed_assets_are_served_offline sample_origin online_network
              offline_network [] _ _ Hinst) as [Hasset _].
  apply (Hasset "/icon-192x192.png" Hin). reflexivity.
Defined.

(** X22, with the cache of an older version around. *)
Lemma activate_keeps_only_current_cache_witness :
  "water-supply-v0.9.0" <> CACHE_NAME /\
  In (DeleteCache "water-supply-v0.9.0") (snd (on_activate old_storage)).
Proof.
  assert (Hne : "water-supply-v0.9.0" <> CACHE_NAME) by discriminate.
  split; [exact Hne|].
  destruct (activate_keeps_only_current_cache old_storage) as (_ & _ & Hdel & _).
  apply Hdel. split; [exact Hne|]. eexists. left. reflexivity.
Defined.

(** X23, with four pending notifications. *)
Lemma catch_up_is_capped_at_three_witness :
  let items := [sample_item; sample_item; sample_item; sample_item] in
  items <> [] /\
  fetchNewNotifications true true (AnswerJson (Some items) (JNum 4))
  = SyncFetch "/api/notifications/pending?limit=10"
    :: map (fun n => SyncShow (item_title n) (catch_up_options n)) (take 3 items)
    ++ [SyncSetAppBadge (JNum 4)].
Proof.
  intros items. assert (Hne : items <> []) by discriminate.
  split; [exact Hne|].
  destruct (catch_up_is_capped_at_three true true (AnswerJson (Some items) (JNum 4)))
    as (_ & Hshown & _).
  apply (Hshown items (JNum 4) eq_refl Hne eq_refl).
Defined.

(** X24, for a pending notification without a target, on a platform
    that can open windows and on one that cannot. *)
Lemma catch_up_click_opens_target_witness :
  "" <> "dismiss" /\
  on_notificationclick sample_origin true (Some [])
    {| action := ""; notification_data := catch_up_data sample_item |}
  = [CloseNotification; MatchAllWindows; OpenWindow (JStr "/")] /\
  on_notificationclick sample_origin false (Some [])
    {| action := ""; notification_data := catch_up_data sample_item |}
  = [CloseNotification; MatchAllWindows].
Proof.
  assert (Hact : "" <> "dismiss") by discriminate.
  split; [exact Hact|]. split.
  - destruct (catch_up_click_opens_target sample_origin true (Some []) sample_item "" Hact)
      as (_ & _ & Hopen).
    exact Hopen.
  - destruct (catch_up_click_opens_target sample_origin false (Some []) sample_item "" Hact)
      as (_ & _ & Hnone).
    exact Hnone.
Defined.

End WorkerMoreProofs.

(** * Properties of the notification pages *)

Module PagesProofs.
Import Js NotificationManager NotificationPages.

Lemma page_unread_cons (n : Notification) (l : list Notification) :
  page_unread (n :: l) = ((if isRead n then 0 else 1) + page_unread l)%nat.
Proof. unfold page_unread. simpl. destruct (isRead n); reflexivity. Qed.

(** X25.  "Mark all read" on the page leaves no unread entry: the
    page's unread count becomes 0, and the list keeps its length, its
    order and its ids. *)
Theorem mark_all_leaves_none_unread (prev : list Notification) :
  page_unread (mark_all_update prev) = 0%nat /\
  map id (mark_all_update prev) = map id prev.
Proof.
  unfold mark_all_update. induction prev as [|n l [IH1 IH2]]; [split; reflexivity|].
  simpl. rewrite page_unread_cons. simpl. rewrite IH1, IH2. split; reflexivity.
Qed.

Lemma click_map_other (clicked : Notification) (l : list Notification) :
  ~ In (id clicked) (map id l) ->
  map (fun n => if String.eqb (id n) (id clicked) then with_read n else n) l = l.
Proof.
  induction l as [|n l IH]; simpl; [reflexivity|]. intros Hn.
  destruct (String.eqb_spec (id n) (id clicked)) as [Heq|Hne].
  - exfalso. apply Hn. left. exact Heq.
  - rewrite IH; [reflexivity|]. intros Hin. apply Hn. right. exact Hin.
Qed.

(** X26.  On a page whose ids are distinct, a click on an unread entry
    lowers the page's unread count by exactly one, as [markAsRead] does
    with the manager's count; the ids and the order stay. *)
Theorem click_lowers_page_count_by_one
    (clicked : Notification) (prev : list Notification) :
  NoDup (map id prev) -> In clicked prev -> isRead clicked = false ->
  S (page_unread (click_update clicked prev)) = page_unread prev /\
  map id (click_update clicked prev) = map id prev.
Proof.
  intros Hnd Hin Hunread. unfold click_update. rewrite Hunread. simpl.
  induction prev as [|n l IH]; [contradiction|].
  simpl in Hnd. apply NoDup_cons in Hnd as [Hnotin Hnd].
  simpl. rewrite !page_unread_cons.
  destruct (String.eqb_spec (id n) (id clicked)) as [Heq|Hne].
  - assert (Hn : n = clicked).
    { destruct Hin as [H|H]; [exact H|]. exfalso. apply Hnotin.
      rewrite Heq. apply list_elem_of_In, in_map. exact H. }
    subst n. rewrite click_map_other.
    + simpl. rewrite Hunread. split; reflexivity.
    + intros H. apply Hnotin. apply list_elem_of_In. exact H.
  - destruct Hin as [H|H]; [subst; contradiction|].
    destruct (IH Hnd H) as [IH1 IH2]. simpl. rewrite IH2. split; [|reflexivity].
    rewrite <- IH1. lia.
Qed.

(** X26, on a page with one unread entry. *)
Lemma click_lowers_page_count_by_one_witness :
  NoDup (map id sample_page) /\ In sample_notification sample_page /\
  isRead sample_notification = false /\
  page_unread sample_page = 1%nat /\
  page_unread (click_update sample_notification sample_page) = 0%nat.
Proof.
  assert (Hnd : NoDup (map id sample_page)).
  { simpl. apply NoDup_cons. split.
    - intros H. apply list_elem_of_In in H. destruct H as [H|[]]. discriminate H.
    - apply NoDup_cons. split; [intros H; inversion H | apply NoDup_nil; exact I]. }
  assert (Hin : In sample_notification sample_page) by (left; reflexivity).
  split; [exact Hnd|]. split; [exact Hin|]. split; [reflexivity|].
  split; [reflexivity|].
  destruct (click_lowers_page_count_by_one sample_notification sample_page
              Hnd Hin eq_refl) as [Hcount _].
  apply eq_add_S. exact Hcount.
Defined.

End PagesProofs.
